(** * go-playground: the CRD schema checker and the file-writing program

    Two [package main] programs are embedded here:
    - [CrdCheck]: the mock controller that checks whether a
      CustomResourceDefinition declares the properties the controller
      expects ([compareSchemaProperties], [checkCRD], [main]);
    - [FileWriter]: the program of [main.go] that prints two lines and
      writes them to a timestamped file under [results/].

    Both are written in a small monad [Go.Proc] that threads the state of
    the outside world (the lines printed so far, or the file system) and
    records how control leaves a function: by falling off its end, by an
    early [return], or by [os.Exit]. *)

From stdpp Require Import gmap strings list fin_maps.

Open Scope Z_scope.

(** ** Control flow and effects of a Go function body *)

Module Go.

(** How a statement sequence ends: it goes on with a value, it executes
    a bare [return] of a function without results, or it terminates the
    process with [os.Exit code]. *)
Inductive flow (A : Type) : Type :=
| Next (a : A)
| Return
| Exit (code : Z).
Arguments Next {A} a.
Arguments Return {A}.
Arguments Exit {A} code.

(** A computation over a world of type [W]. *)
Definition Proc (W A : Type) : Type := W -> flow A * W.

Definition ret {W A} (a : A) : Proc W A := fun w => (Next a, w).

Definition bind {W A B} (m : Proc W A) (k : A -> Proc W B) : Proc W B :=
  fun w =>
    match m w with
    | (Next a, w') => k a w'
    | (Return, w') => (Return, w')
    | (Exit c, w') => (Exit c, w')
    end.

(** The bare [return] statement. *)
Definition return_ {W A} : Proc W A := fun w => (Return, w).

(** [os.Exit]: deferred calls are not run, the process stops here. *)
Definition os_Exit {W A} (code : Z) : Proc W A := fun w => (Exit code, w).

(** Calling a function without results: an early [return] inside the
    callee resumes the caller, [os.Exit] still ends the process. *)
Definition call {W} (body : Proc W unit) : Proc W unit :=
  fun w =>
    match body w with
    | (Return, w') => (Next tt, w')
    | r => r
    end.

(** Change the world. *)
Definition modify {W} (f : W -> W) : Proc W unit := fun w => (Next tt, f w).

#[global] Instance Proc_mret {W} : MRet (Proc W) := fun A => @ret W A.
#[global] Instance Proc_mbind {W} : MBind (Proc W) :=
  fun A B k m => @bind W A B m k.

End Go.

Import Go.

(** ** The CRD schema checker *)

Module CrdCheck.

(** *** Types of the Kubernetes API packages *)

(** Modelled from the spec: the struct [apiextensionsv1.JSONSchemaProps]
    of k8s.io/apiextensions-apiserver is not part of this repository.
    The spec describes a property descriptor as carrying a primitive
    type tag, an optional format qualifier and nested [properties];
    these are the three fields the program reads or writes.  A [nil]
    Go map and an empty one answer every lookup and every [range] the
    same way, so both are the empty [gmap]. *)
#[warnings="-register-all"] Inductive JSONSchemaProps : Type :=
  MkJSONSchemaProps {
    Type_ : string;
    Format : string;
    Properties : gmap string JSONSchemaProps
  }.

(** Modelled from the spec: [apiextensionsv1.CustomResourceValidation],
    whose [OpenAPIV3Schema] is a pointer that may be [nil]. *)
Record CustomResourceValidation : Type :=
  MkCustomResourceValidation {
    OpenAPIV3Schema : option JSONSchemaProps
  }.

(** Modelled from the spec: [apiextensionsv1.CustomResourceDefinitionVersion],
    a version name and an optional schema (a pointer that may be [nil]). *)
Record CustomResourceDefinitionVersion : Type :=
  MkCustomResourceDefinitionVersion {
    Name : string;
    Schema : option CustomResourceValidation
  }.

(** Modelled from the spec: [apiextensionsv1.CustomResourceDefinitionSpec],
    of which the program reads the list of versions. *)
Record CustomResourceDefinitionSpec : Type :=
  MkCustomResourceDefinitionSpec {
    Versions : list CustomResourceDefinitionVersion
  }.

(** Modelled from the spec: [apiextensionsv1.CustomResourceDefinition]. *)
Record CustomResourceDefinition : Type :=
  MkCustomResourceDefinition {
    Spec : CustomResourceDefinitionSpec
  }.

(** *** What the program prints *)

(** One constructor per print statement of the source, in source order.
    [Print*] lines go through [fmt] to standard output, [Log*] lines
    through the standard logger. *)
Inductive line : Type :=
| PrintFAIL (key : string)
| PrintOK (key : string)
| LogRunningCheck (crdName : string)
| LogFatalUnmarshal (crdName err : string)
| LogFatalConvert (crdName err : string)
| LogConverted
| LogNoV1Schema (crdName : string)
| LogCheckingSpec
| LogMissingSpec (crdName : string)
| LogCheckingStatus
| LogMissingStatus (crdName : string)
| PrintCheckComplete
| LogUpToDate
| LogOutOfDate
| LogSpecMissing
| LogStatusMissing
| PrintBlank
| LogStarting.

#[global] Instance line_eq_dec : EqDecision line.
Proof. solve_decision. Defined.

Inductive sink : Type := Stdout | Logger.

Definition nl : string := String (Ascii.ascii_of_nat 10) EmptyString.

(** The text of each line, as the format strings of the source give it.
    The logger adds its own time prefix and a final newline where the
    message has none. *)
Definition render (l : line) : sink * string :=
  match l with
  | PrintFAIL key =>
      (Stdout, "  FAIL: Expected property '" +:+ key +:+ "' not found in CRD schema." +:+ nl)
  | PrintOK key =>
      (Stdout, "  OK: Property '" +:+ key +:+ "' found in CRD schema." +:+ nl)
  | LogRunningCheck crdName =>
      (Logger, "===== Running Check for: " +:+ crdName +:+ " =====" +:+ nl)
  | LogFatalUnmarshal crdName err =>
      (Logger, "Failed to unmarshal mock CRD yaml for " +:+ crdName +:+ ": " +:+ err)
  | LogFatalConvert crdName err =>
      (Logger, "Failed to convert unstructured object for " +:+ crdName +:+ ": " +:+ err)
  | LogConverted =>
      (Logger, "Successfully converted unstructured object to typed CRD.")
  | LogNoV1Schema crdName =>
      (Logger, "Could not find v1 schema in the CRD: " +:+ crdName)
  | LogCheckingSpec =>
      (Logger, nl +:+ "--- Checking if CRD Spec schema is up-to-date ---")
  | LogMissingSpec crdName =>
      (Logger, "CRD schema for " +:+ crdName +:+ " is missing 'spec' property.")
  | LogCheckingStatus =>
      (Logger, nl +:+ "--- Checking if CRD Status schema is up-to-date ---")
  | LogMissingStatus crdName =>
      (Logger, "CRD schema for " +:+ crdName +:+ " is missing 'status' property.")
  | PrintCheckComplete =>
      (Stdout, nl +:+ "--- Check complete ---" +:+ nl)
  | LogUpToDate =>
      (Logger, "Conclusion: The installed CustomResourceDefinition schema appears to be up-to-date.")
  | LogOutOfDate =>
      (Logger, "Conclusion: The installed CustomResourceDefinition schema is out-of-date.")
  | LogSpecMissing =>
      (Logger, "-> 'spec' properties are missing.")
  | LogStatusMissing =>
      (Logger, "-> 'status' properties are missing.")
  | PrintBlank =>
      (Stdout, nl)
  | LogStarting =>
      (Logger, "Starting mock controller to check CRD definitions...")
  end.

(** The world of this program is the sequence of lines printed so far. *)
Definition output : Type := list line.

Definition emit (l : line) : Proc output unit :=
  modify (fun out => out ++ [l]).

(** [log.Fatalf]: print, then [os.Exit(1)]. *)
Definition log_Fatal {A} (l : line) : Proc output A :=
  emit l ;; os_Exit 1.

(** *** Iteration over a Go map *)

(** [for key := range m] visits every key of [m] once, in an order the
    language leaves open and that may change from one loop to the next.
    Each [range] loop of the program therefore receives the order the
    runtime chose for it: a function from the map to the sequence of
    keys visited. *)
Definition map_range : Type := gmap string JSONSchemaProps -> list string.

(** An order the runtime may choose: an enumeration of the keys. *)
Definition valid_range (rg : map_range) : Prop :=
  forall m, rg m ≡ₚ elements (dom m).

(** Two particular orders: the one in which the finite map lists its
    keys, and the reverse of it. *)
Definition stored_range : map_range := fun m => elements (dom m).
Definition reversed_range : map_range := fun m => reverse (elements (dom m)).

(** *** compareSchemaProperties *)

(** The body of the [range] loop: one key is tested and reported, and
    [allPropertiesFound] is updated. *)
Definition compareKey (actual : gmap string JSONSchemaProps)
    (allPropertiesFound : bool) (key : string) : Proc output bool :=
  match actual !! key with
  | None =>
      emit (PrintFAIL key) ;;
      mret false
  | Some _ =>
      emit (PrintOK key) ;;
      mret allPropertiesFound
  end.

Fixpoint rangeKeys (actual : gmap string JSONSchemaProps)
    (allPropertiesFound : bool) (keys : list string) : Proc output bool :=
  match keys with
  | [] => mret allPropertiesFound
  | key :: rest =>
      found ← compareKey actual allPropertiesFound key;
      rangeKeys actual found rest
  end.

(** [compareSchemaProperties] checks if all property keys from
    [expected] exist in [actual]. *)
Definition compareSchemaProperties (rg : map_range)
    (actual expected : gmap string JSONSchemaProps) : Proc output bool :=
  let allPropertiesFound := true in
  rangeKeys actual allPropertiesFound (rg expected).

(** *** The documents and the expected properties *)

Definition mockOutOfDateCRDFromCluster : string := "
apiVersion: apiextensions.k8s.io/v1
kind: CustomResourceDefinition
metadata:
  name: mycustomresources.example.com-out-of-date
spec:
  group: example.com
  names:
    kind: MyCustomResource
    listKind: MyCustomResourceList
    plural: mycustomresources
    singular: mycustomresource
  scope: Namespaced
  versions:
  - name: v1
    schema:
      openAPIV3Schema:
        type: object
        properties:
          spec:
            type: object
            properties:
              foo:
                type: string
          status:
            type: object
            properties:
              message:
                type: string
    served: true
    storage: true
".

Definition mockUpToDateCRDFromCluster : string := "
apiVersion: apiextensions.k8s.io/v1
kind: CustomResourceDefinition
metadata:
  name: mycustomresources.example.com-up-to-date
spec:
  group: example.com
  names:
    kind: MyCustomResource
    listKind: MyCustomResourceList
    plural: mycustomresources
    singular: mycustomresource
  scope: Namespaced
  versions:
  - name: v1
    schema:
      openAPIV3Schema:
        type: object
        properties:
          spec:
            type: object
            properties:
              foo:
                type: string
              bar:
                type: integer
                format: int64
          status:
            type: object
            properties:
              message:
                type: string
              ready:
                type: boolean
    served: true
    storage: true
".

(** A schema node without nested properties. *)
Definition scalar (type format : string) : JSONSchemaProps :=
  MkJSONSchemaProps type format ∅.

Definition object (properties : gmap string JSONSchemaProps) : JSONSchemaProps :=
  MkJSONSchemaProps "object" "" properties.

(** A version named [v1] whose schema is an object with the given
    top-level properties, and the document with that one version. *)
Definition v1Version (properties : gmap string JSONSchemaProps)
    : CustomResourceDefinitionVersion :=
  MkCustomResourceDefinitionVersion "v1"
    (Some (MkCustomResourceValidation (Some (object properties)))).

Definition singleVersionCRD (properties : gmap string JSONSchemaProps)
    : CustomResourceDefinition :=
  MkCustomResourceDefinition (MkCustomResourceDefinitionSpec
    [ v1Version properties ]).

Definition outOfDateProperties : gmap string JSONSchemaProps :=
  <["spec" := object (<["foo" := scalar "string" ""]> ∅)]>
  (<["status" := object (<["message" := scalar "string" ""]> ∅)]> ∅).

Definition upToDateProperties : gmap string JSONSchemaProps :=
  <["spec" := object (<["foo" := scalar "string" ""]>
                      (<["bar" := scalar "integer" "int64"]> ∅))]>
  (<["status" := object (<["message" := scalar "string" ""]>
                        (<["ready" := scalar "boolean" ""]> ∅))]> ∅).

(** The typed document that [mockOutOfDateCRDFromCluster] denotes, on
    the fields modelled here: one version [v1] whose schema has [spec]
    properties [foo] and [status] properties [message]. *)
Definition mockOutOfDateCRD : CustomResourceDefinition :=
  singleVersionCRD outOfDateProperties.

(** The typed document that [mockUpToDateCRDFromCluster] denotes. *)
Definition mockUpToDateCRD : CustomResourceDefinition :=
  singleVersionCRD upToDateProperties.

Definition expectedSpecProperties : gmap string JSONSchemaProps :=
  <["foo" := scalar "string" ""]>
  (<["bar" := scalar "integer" "int64"]> ∅).

Definition expectedStatusProperties : gmap string JSONSchemaProps :=
  <["message" := scalar "string" ""]>
  (<["ready" := scalar "boolean" ""]> ∅).

(** A document with two versions named [v1]: the first has the schema
    of the out-of-date document, the second the up-to-date one. *)
Definition twiceV1CRD : CustomResourceDefinition :=
  MkCustomResourceDefinition (MkCustomResourceDefinitionSpec
    [ v1Version outOfDateProperties; v1Version upToDateProperties ]).

(** Documents in which something is absent: no version [v1], a version
    [v1] without schema, a schema without [spec], and one without
    [status]. *)
Definition onlyV2CRD : CustomResourceDefinition :=
  MkCustomResourceDefinition (MkCustomResourceDefinitionSpec
    [ MkCustomResourceDefinitionVersion "v2"
        (Some (MkCustomResourceValidation (Some (object ∅)))) ]).

Definition schemalessCRD : CustomResourceDefinition :=
  MkCustomResourceDefinition (MkCustomResourceDefinitionSpec
    [ MkCustomResourceDefinitionVersion "v1" None ]).

Definition noSpecCRD : CustomResourceDefinition :=
  singleVersionCRD
    (<["status" := object (<["message" := scalar "string" ""]> ∅)]> ∅).

Definition noStatusCRD : CustomResourceDefinition :=
  singleVersionCRD
    (<["spec" := object (<["foo" := scalar "string" ""]> ∅)]> ∅).

(** Properties with the expected [spec] keys and other descriptors. *)
Definition retyped : gmap string JSONSchemaProps :=
  <["foo" := scalar "boolean" ""]> (<["bar" := scalar "string" "date"]> ∅).

(** *** checkCRD *)

(** Step 4, the loop over [crd.Spec.Versions]: [v1schema] starts as the
    [nil] pointer and takes the schema of the first version named [v1],
    where the loop breaks. *)
Fixpoint rangeVersions (versions : list CustomResourceDefinitionVersion)
    (v1schema : option CustomResourceValidation)
    : option CustomResourceValidation :=
  match versions with
  | [] => v1schema
  | version :: rest =>
      if String.eqb (Name version) "v1"
      then Schema version
      else rangeVersions rest v1schema
  end.

(** The schema that passes the test
    [v1schema == nil || v1schema.OpenAPIV3Schema == nil]. *)
Definition openAPIV3SchemaOf (v1schema : option CustomResourceValidation)
    : option JSONSchemaProps :=
  match v1schema with
  | None => None
  | Some validation => OpenAPIV3Schema validation
  end.

(** Steps 3 to 5 of [checkCRD], on the typed document. The two
    [range] loops each have their own order, [rgSpec] and [rgStatus]. *)
Definition checkCRD_typed (rgSpec rgStatus : map_range) (crdName : string)
    (crd : CustomResourceDefinition) : Proc output unit :=
  let v1schema := rangeVersions (Versions (Spec crd)) None in
  actualCRDSchema ←
    match openAPIV3SchemaOf v1schema with
    | None => emit (LogNoV1Schema crdName) ;; return_
    | Some schema => mret schema
    end;
  emit LogCheckingSpec ;;
  specSchema ←
    match Properties actualCRDSchema !! "spec" with
    | None => emit (LogMissingSpec crdName) ;; return_
    | Some schema => mret schema
    end;
  specUpToDate ←
    compareSchemaProperties rgSpec (Properties specSchema) expectedSpecProperties;
  emit LogCheckingStatus ;;
  statusSchema ←
    match Properties actualCRDSchema !! "status" with
    | None => emit (LogMissingStatus crdName) ;; return_
    | Some schema => mret schema
    end;
  statusUpToDate ←
    compareSchemaProperties rgStatus (Properties statusSchema) expectedStatusProperties;
  emit PrintCheckComplete ;;
  (if specUpToDate && statusUpToDate
   then emit LogUpToDate
   else
     emit LogOutOfDate ;;
     (if negb specUpToDate then emit LogSpecMissing else mret tt) ;;
     (if negb statusUpToDate then emit LogStatusMissing else mret tt)) ;;
  emit PrintBlank.

Section Decoding.

(** The two decoding steps belong to sigs.k8s.io/yaml and to
    k8s.io/apimachinery; they are parameters here.  Each gives an
    error message or a value. *)
Variable Unstructured : Type.
Variable yaml_Unmarshal : string -> string + Unstructured.
Variable FromUnstructured : Unstructured -> string + CustomResourceDefinition.

(** [checkCRD] runs the validation logic against a given CRD YAML
    string. *)
Definition checkCRD (rgSpec rgStatus : map_range) (crdName crdYaml : string)
    : Proc output unit :=
  emit (LogRunningCheck crdName) ;;
  unstructuredObj ←
    match yaml_Unmarshal crdYaml with
    | inl err => log_Fatal (LogFatalUnmarshal crdName err)
    | inr obj => mret obj
    end;
  crd ←
    match FromUnstructured unstructuredObj with
    | inl err => log_Fatal (LogFatalConvert crdName err)
    | inr crd => mret crd
    end;
  emit LogConverted ;;
  checkCRD_typed rgSpec rgStatus crdName crd.

(** [main]: the two checks, each a call that an early [return] of
    [checkCRD] ends, with the orders of its four [range] loops. *)
Definition main (rg1 rg2 rg3 rg4 : map_range) : Proc output unit :=
  emit LogStarting ;;
  call (checkCRD rg1 rg2 "Out-of-Date CRD" mockOutOfDateCRDFromCluster) ;;
  call (checkCRD rg3 rg4 "Up-to-Date CRD" mockUpToDateCRDFromCluster).

End Decoding.

(** The lines a computation prints when started with nothing printed. *)
Definition trace {A} (m : Proc output A) : list line := (m []).2.

(** *** Reading the printed lines *)

(** The keys reported as not found. *)
Definition failedKey (l : line) : option string :=
  match l with
  | PrintFAIL key => Some key
  | _ => None
  end.

Definition failedKeys (t : list line) : list string := omap failedKey t.

(** The lines printed before and after the header of the status check. *)
Fixpoint specPart (t : list line) : list line :=
  match t with
  | [] => []
  | LogCheckingStatus :: _ => []
  | l :: rest => l :: specPart rest
  end.

Fixpoint statusPart (t : list line) : list line :=
  match t with
  | [] => []
  | LogCheckingStatus :: rest => rest
  | _ :: rest => statusPart rest
  end.

(** The outcomes a check of one document can have. *)
Inductive Verdict : Type :=
| UpToDate
| OutOfDate (missingSpec missingStatus : list string)
| Unparseable
| SectionMissing (section : string)
| VersionNotFound.

(** The line that closes a check tells its outcome; an out-of-date
    conclusion goes with the keys reported missing in each section. *)
Definition conclusion (missingSpec missingStatus : list string) (l : line)
    : option Verdict :=
  match l with
  | LogFatalUnmarshal _ _ | LogFatalConvert _ _ => Some Unparseable
  | LogNoV1Schema _ => Some VersionNotFound
  | LogMissingSpec _ => Some (SectionMissing "spec")
  | LogMissingStatus _ => Some (SectionMissing "status")
  | LogUpToDate => Some UpToDate
  | LogOutOfDate => Some (OutOfDate missingSpec missingStatus)
  | _ => None
  end.

Definition verdictOf (t : list line) : option Verdict :=
  head (omap (conclusion (failedKeys (specPart t)) (failedKeys (statusPart t))) t).

(** *** Vocabulary of the properties *)

(** Whether a key is declared, the line that reports it, and the keys
    of a sequence that are not declared. *)
Definition present (actual : gmap string JSONSchemaProps) (key : string) : bool :=
  bool_decide (is_Some (actual !! key)).

Definition report (actual : gmap string JSONSchemaProps) (key : string) : line :=
  if present actual key then PrintOK key else PrintFAIL key.

Definition missing (actual : gmap string JSONSchemaProps) (keys : list string)
    : list string :=
  filter (fun key => present actual key = false) keys.

(** The lines that close a complete check, from the two results. *)
Definition closing (specUpToDate statusUpToDate : bool) : list line :=
  if specUpToDate && statusUpToDate then [LogUpToDate]
  else LogOutOfDate
       :: (if specUpToDate then [] else [LogSpecMissing])
       ++ (if statusUpToDate then [] else [LogStatusMissing]).

(** [version] is the first entry of [versions] named [v1]. *)
Definition firstNamedV1 (versions : list CustomResourceDefinitionVersion)
    (version : CustomResourceDefinitionVersion) : Prop :=
  exists before after,
    versions = before ++ version :: after /\
    Forall (fun earlier => Name earlier <> "v1") before /\
    Name version = "v1".

(** The verdict of a check of the typed document. *)
Definition evaluate (rgSpec rgStatus : map_range) (crdName : string)
    (crd : CustomResourceDefinition) : option Verdict :=
  verdictOf (trace (checkCRD_typed rgSpec rgStatus crdName crd)).

End CrdCheck.

(** ** The file-writing program *)

Module FileWriter.

(** The part of the outside world the program touches: the two standard
    streams, the directories made, and the content of each file. *)
Record world : Type :=
  MkWorld {
    stdout : string;
    stderr : string;
    dirs : gset string;
    files : gmap string string
  }.

(** What the operating system answers: the formatted time of the clock,
    and for the creation of each directory or file, an error message or
    none.  The program creates each path once, so these answers cover
    every combination of failures of its three creations. *)
Record system : Type :=
  MkSystem {
    clock : string;
    mkdirError : string -> option string;
    createError : string -> option string
  }.

Definition nl : string := String (Ascii.ascii_of_nat 10) EmptyString.

(** An open file is known by its path. *)
Definition File : Type := string.

Section Program.

Variable sys : system.

(** [time.Now().Format(layout)]. *)
Definition time_Now_Format (layout : string) : Proc world string :=
  mret (clock sys).

(** [os.MkdirAll(path, perm)]: the error, or [None] and the directory
    exists. *)
Definition os_MkdirAll (path : string) : Proc world (option string) :=
  fun w =>
    match mkdirError sys path with
    | Some err => (Next (Some err), w)
    | None =>
        (Next None,
         MkWorld (stdout w) (stderr w) ({[path]} ∪ dirs w) (files w))
    end.

(** [os.Create(name)]: the error, or the file, created or truncated. *)
Definition os_Create (name : string) : Proc world (string + File) :=
  fun w =>
    match createError sys name with
    | Some err => (Next (inl err), w)
    | None =>
        (Next (inr name),
         MkWorld (stdout w) (stderr w) (dirs w) (<[name := ""]> (files w)))
    end.

(** [fmt.Fprintf(os.Stderr, ...)] with the formatted text. *)
Definition fmt_Fprintf_Stderr (text : string) : Proc world unit :=
  modify (fun w => MkWorld (stdout w) (stderr w +:+ text) (dirs w) (files w)).

(** [fmt.Println(s)]. *)
Definition fmt_Println (s : string) : Proc world unit :=
  modify (fun w => MkWorld (stdout w +:+ s +:+ nl) (stderr w) (dirs w) (files w)).

(** [fmt.Fprintln(f, s)] on an open file; the program ignores its
    result, and the write is taken to reach the file. *)
Definition fmt_Fprintln (f : File) (s : string) : Proc world unit :=
  modify (fun w =>
    MkWorld (stdout w) (stderr w) (dirs w)
            (alter (fun content => content +:+ s +:+ nl) f (files w))).

(** [filepath.Join(dir, name)] for two clean elements, with the
    separator [/]. *)
Definition filepath_Join (dir name : string) : string :=
  dir +:+ "/" +:+ name.

Definition outputName (timestamp : string) : string :=
  "output-" +:+ timestamp +:+ ".txt".

Definition errorName (timestamp : string) : string :=
  "error-" +:+ timestamp +:+ ".txt".

(** [main].  The two deferred [Close] calls never run: every path
    leaves through [os.Exit]. *)
Definition main : Proc world unit :=
  timestamp ← time_Now_Format "20060102-150405";
  let resultsDir := "results" in
  err ← os_MkdirAll resultsDir;
  match err with
  | Some err =>
      fmt_Fprintf_Stderr ("Error creating results directory: " +:+ err +:+ nl) ;;
      os_Exit 1
  | None => mret tt
  end ;;
  let outputFile := filepath_Join resultsDir (outputName timestamp) in
  created ← os_Create outputFile;
  outF ←
    match created with
    | inl err =>
        fmt_Fprintf_Stderr ("Error creating output file: " +:+ err +:+ nl) ;;
        os_Exit 1
    | inr f => mret f
    end;
  let errorFile := filepath_Join resultsDir (errorName timestamp) in
  created ← os_Create errorFile;
  errF ←
    match created with
    | inl err =>
        fmt_Fprintf_Stderr ("Error creating error file: " +:+ err +:+ nl) ;;
        os_Exit 1
    | inr f => mret (f : File)
    end;
  let output1 := "Hello from Go Playground!" in
  let output2 := "This is a simple Go program that runs to completion." in
  fmt_Println output1 ;;
  fmt_Println output2 ;;
  fmt_Fprintln outF output1 ;;
  fmt_Fprintln outF output2 ;;
  os_Exit 0.

End Program.

(** A system on which nothing fails, and the world before anything ran. *)
Definition obliging (timestamp : string) : system :=
  MkSystem timestamp (fun _ => None) (fun _ => None).

(** A system on which the files whose path starts with [prefix] cannot
    be created. *)
Definition refusing (timestamp prefix : string) : system :=
  MkSystem timestamp (fun _ => None)
    (fun path => if String.prefix prefix path then Some "permission denied" else None).

Definition pristine : world := MkWorld "" "" ∅ ∅.

End FileWriter.

(** ** Decoders and vocabulary for the whole programs *)

Module Fixtures.

Import CrdCheck.

(** The key set of a section of a schema, when the section is there. *)
Definition sectionKeys (schema : JSONSchemaProps) (section : string)
    : option (gset string) :=
  (fun sectionSchema => dom (Properties sectionSchema))
    <$> (Properties schema !! section).

(** A decoder that knows the two documents of the program and gives
    their typed content; it reports any other text as an error. *)
Definition knownDocuments (crdYaml : string) : string + CustomResourceDefinition :=
  if String.eqb crdYaml mockOutOfDateCRDFromCluster then inr mockOutOfDateCRD
  else if String.eqb crdYaml mockUpToDateCRDFromCluster then inr mockUpToDateCRD
  else inl "unknown document".

(** A decoder on which every text is malformed. *)
Definition malformed (crdYaml : string) : string + CustomResourceDefinition :=
  inl "yaml: mapping values are not allowed in this context".

(** A decoder on which only the second document of the program is
    malformed. *)
Definition secondMalformed (crdYaml : string) : string + CustomResourceDefinition :=
  if String.eqb crdYaml mockUpToDateCRDFromCluster
  then inl "yaml: did not find expected key"
  else knownDocuments crdYaml.

(** A conversion that accepts every object, and one that accepts none. *)
Definition accept (crd : CustomResourceDefinition)
    : string + CustomResourceDefinition := inr crd.

Definition reject (crd : CustomResourceDefinition)
    : string + CustomResourceDefinition := inl "unrecognized type".

End Fixtures.

(** ** Properties of the CRD schema checker *)

Module CrdCheckFacts.

Import CrdCheck.

(** *** Running the monad *)

Section Running.

Context {W : Type}.

Lemma run_bind_next {A B} (m : Proc W A) (k : A -> Proc W B) w a w' :
  m w = (Next a, w') -> (m ≫= k) w = k a w'.
Proof. intros Hm. unfold mbind, Proc_mbind, bind. now rewrite Hm. Qed.

Lemma run_bind_return {A B} (m : Proc W A) (k : A -> Proc W B) w w' :
  m w = (Return, w') -> (m ≫= k) w = (Return, w').
Proof. intros Hm. unfold mbind, Proc_mbind, bind. now rewrite Hm. Qed.

Lemma run_bind_exit {A B} (m : Proc W A) (k : A -> Proc W B) w c w' :
  m w = (Exit c, w') -> (m ≫= k) w = (Exit c, w').
Proof. intros Hm. unfold mbind, Proc_mbind, bind. now rewrite Hm. Qed.

Lemma run_mret {A} (a : A) (w : W) : (mret a : Proc W A) w = (Next a, w).
Proof. reflexivity. Qed.

End Running.

Lemma run_emit l (out : output) : emit l out = (Next tt, out ++ [l]).
Proof. reflexivity. Qed.

(** *** The range loop *)

Lemma present_true actual key :
  present actual key = true <-> key ∈ dom actual.
Proof.
  unfold present. rewrite bool_decide_eq_true. symmetry. apply elem_of_dom.
Qed.

Lemma present_false actual key :
  present actual key = false <-> key ∉ dom actual.
Proof.
  rewrite <- present_true. destruct (present actual key); split; congruence.
Qed.

Lemma present_dom actual actual' key :
  dom actual = dom actual' -> present actual key = present actual' key.
Proof.
  intros Hdom. apply eq_true_iff_eq. rewrite !present_true. now rewrite Hdom.
Qed.

Lemma run_compareKey actual found key out :
  compareKey actual found key out
  = (Next (found && present actual key), out ++ [report actual key]).
Proof.
  unfold compareKey, report, present.
  destruct (actual !! key) as [descriptor|] eqn:Hkey.
  - rewrite bool_decide_eq_true_2 by eauto.
    rewrite andb_true_r. reflexivity.
  - rewrite bool_decide_eq_false_2 by (intros [? ?]; discriminate).
    rewrite andb_false_r. reflexivity.
Qed.

Lemma run_rangeKeys actual keys : forall found out,
  rangeKeys actual found keys out
  = (Next (found && forallb (present actual) keys),
     out ++ map (report actual) keys).
Proof.
  induction keys as [|key rest IH]; intros found out; simpl.
  - now rewrite andb_true_r, app_nil_r.
  - erewrite run_bind_next by apply run_compareKey.
    rewrite IH, <- app_assoc, andb_assoc. reflexivity.
Qed.

Lemma run_compareSchemaProperties rg actual expected out :
  compareSchemaProperties rg actual expected out
  = (Next (forallb (present actual) (rg expected)),
     out ++ map (report actual) (rg expected)).
Proof. unfold compareSchemaProperties. now rewrite run_rangeKeys. Qed.

Lemma forallb_present_subseteq rg actual (expected : gmap string JSONSchemaProps) :
  valid_range rg ->
  forallb (present actual) (rg expected) = true <-> dom expected ⊆ dom actual.
Proof.
  intros Hrg. rewrite forallb_forall. split.
  - intros Hall key Hkey. apply present_true, Hall.
    apply list_elem_of_In. rewrite (Hrg expected). now apply elem_of_elements.
  - intros Hsub key Hkey. apply present_true, Hsub.
    apply list_elem_of_In in Hkey. rewrite (Hrg expected) in Hkey.
    now apply elem_of_elements in Hkey.
Qed.

Lemma failedKeys_report actual keys :
  failedKeys (map (report actual) keys) = missing actual keys.
Proof.
  unfold failedKeys, missing.
  induction keys as [|key rest IH]; [reflexivity|].
  simpl. rewrite filter_cons. unfold report at 1.
  destruct (decide (present actual key = false)) as [Hkey|Hkey].
  - rewrite Hkey. simpl. f_equal. exact IH.
  - apply not_false_is_true in Hkey. rewrite Hkey. simpl. exact IH.
Qed.

Lemma missing_nil actual keys :
  missing actual keys = [] <-> forallb (present actual) keys = true.
Proof.
  unfold missing. induction keys as [|key rest IH]; [easy|].
  simpl. rewrite filter_cons.
  destruct (decide (present actual key = false)) as [Hkey|Hkey].
  - rewrite Hkey. simpl. split; discriminate.
  - apply not_false_is_true in Hkey. rewrite Hkey. simpl. exact IH.
Qed.

(** *** Locating the v1 schema *)

Lemma rangeVersions_unnamed versions v1schema :
  Forall (fun version => Name version <> "v1") versions ->
  rangeVersions versions v1schema = v1schema.
Proof.
  induction 1 as [|version rest Hname _ IH]; simpl; [reflexivity|].
  apply String.eqb_neq in Hname. now rewrite Hname.
Qed.

Lemma rangeVersions_first versions version v1schema :
  firstNamedV1 versions version ->
  rangeVersions versions v1schema = Schema version.
Proof.
  intros (before & after & -> & Hbefore & Hname).
  induction Hbefore as [|earlier rest Hearlier _ IH]; simpl.
  - apply String.eqb_eq in Hname. now rewrite Hname.
  - apply String.eqb_neq in Hearlier. now rewrite Hearlier.
Qed.

(** *** The four ways through checkCRD *)

Ltac run_step :=
  first
    [ erewrite run_bind_next by
        first [ apply run_emit | apply run_mret
              | apply run_compareSchemaProperties ]
    | erewrite run_bind_return by reflexivity ].

Section Ways.

Variables (rgSpec rgStatus : map_range) (crdName : string).
Variable crd : CustomResourceDefinition.

Abbreviation v1schema := (rangeVersions (Versions (Spec crd)) None).

Lemma run_checkCRD_noSchema out :
  openAPIV3SchemaOf v1schema = None ->
  checkCRD_typed rgSpec rgStatus crdName crd out
  = (Return, out ++ [LogNoV1Schema crdName]).
Proof.
  intros Hschema. unfold checkCRD_typed. rewrite Hschema.
  apply run_bind_return. now run_step.
Qed.

Lemma run_checkCRD_noSpec schema out :
  openAPIV3SchemaOf v1schema = Some schema ->
  Properties schema !! "spec" = None ->
  checkCRD_typed rgSpec rgStatus crdName crd out
  = (Return, out ++ [LogCheckingSpec; LogMissingSpec crdName]).
Proof.
  intros Hschema Hspec. unfold checkCRD_typed.
  rewrite Hschema. do 2 run_step. rewrite Hspec.
  apply run_bind_return. run_step.
  now rewrite <- app_assoc.
Qed.

Lemma run_checkCRD_noStatus schema specSchema out :
  openAPIV3SchemaOf v1schema = Some schema ->
  Properties schema !! "spec" = Some specSchema ->
  Properties schema !! "status" = None ->
  checkCRD_typed rgSpec rgStatus crdName crd out
  = (Return,
     out ++ [LogCheckingSpec]
         ++ map (report (Properties specSchema)) (rgSpec expectedSpecProperties)
         ++ [LogCheckingStatus; LogMissingStatus crdName]).
Proof.
  intros Hschema Hspec Hstatus. unfold checkCRD_typed.
  rewrite Hschema. do 2 run_step. rewrite Hspec. do 3 run_step.
  rewrite Hstatus. apply run_bind_return. run_step.
  now rewrite <- !app_assoc.
Qed.

Lemma run_checkCRD_complete schema specSchema statusSchema out :
  openAPIV3SchemaOf v1schema = Some schema ->
  Properties schema !! "spec" = Some specSchema ->
  Properties schema !! "status" = Some statusSchema ->
  checkCRD_typed rgSpec rgStatus crdName crd out
  = (Next tt,
     out ++ [LogCheckingSpec]
         ++ map (report (Properties specSchema)) (rgSpec expectedSpecProperties)
         ++ [LogCheckingStatus]
         ++ map (report (Properties statusSchema)) (rgStatus expectedStatusProperties)
         ++ [PrintCheckComplete]
         ++ closing
              (forallb (present (Properties specSchema)) (rgSpec expectedSpecProperties))
              (forallb (present (Properties statusSchema)) (rgStatus expectedStatusProperties))
         ++ [PrintBlank]).
Proof.
  intros Hschema Hspec Hstatus. unfold checkCRD_typed.
  rewrite Hschema. do 2 run_step. rewrite Hspec. do 3 run_step.
  rewrite Hstatus. do 3 run_step.
  unfold closing.
  destruct (forallb _ (rgSpec _)), (forallb _ (rgStatus _)); simpl;
    repeat run_step; rewrite run_emit, <- ?app_assoc; reflexivity.
Qed.

End Ways.

(** *** From the YAML text to the typed document *)

Section Decoded.

Variable Unstructured : Type.
Variable yaml_Unmarshal : string -> string + Unstructured.
Variable FromUnstructured : Unstructured -> string + CustomResourceDefinition.

(** Once both decoding steps succeed, [checkCRD] is the check of the
    typed document after two more lines. *)
Lemma run_checkCRD_decoded rgSpec rgStatus crdName crdYaml obj crd out :
  yaml_Unmarshal crdYaml = inr obj ->
  FromUnstructured obj = inr crd ->
  checkCRD Unstructured yaml_Unmarshal FromUnstructured
    rgSpec rgStatus crdName crdYaml out
  = checkCRD_typed rgSpec rgStatus crdName crd
      (out ++ [LogRunningCheck crdName; LogConverted]).
Proof.
  intros Hyaml Hconvert. unfold checkCRD.
  run_step. rewrite Hyaml. run_step. rewrite Hconvert. do 2 run_step.
  now rewrite <- app_assoc.
Qed.

(** A failure of either step ends the process with code 1. *)
Lemma run_checkCRD_unmarshal_error rgSpec rgStatus crdName crdYaml err out :
  yaml_Unmarshal crdYaml = inl err ->
  checkCRD Unstructured yaml_Unmarshal FromUnstructured
    rgSpec rgStatus crdName crdYaml out
  = (Exit 1, out ++ [LogRunningCheck crdName; LogFatalUnmarshal crdName err]).
Proof.
  intros Hyaml. unfold checkCRD. run_step. rewrite Hyaml.
  apply run_bind_exit. unfold log_Fatal. run_step.
  now rewrite <- app_assoc.
Qed.

Lemma run_checkCRD_convert_error rgSpec rgStatus crdName crdYaml obj err out :
  yaml_Unmarshal crdYaml = inr obj ->
  FromUnstructured obj = inl err ->
  checkCRD Unstructured yaml_Unmarshal FromUnstructured
    rgSpec rgStatus crdName crdYaml out
  = (Exit 1, out ++ [LogRunningCheck crdName; LogFatalConvert crdName err]).
Proof.
  intros Hyaml Hconvert. unfold checkCRD. run_step. rewrite Hyaml.
  run_step. rewrite Hconvert.
  apply run_bind_exit. unfold log_Fatal. run_step.
  now rewrite <- app_assoc.
Qed.

End Decoded.

(** *** compareSchemaProperties as a subset test *)

Lemma stored_valid : valid_range stored_range.
Proof. intros m. reflexivity. Qed.

Lemma reversed_valid : valid_range reversed_range.
Proof. intros m. unfold reversed_range. now rewrite reverse_Permutation. Qed.

(** C1. [compareSchemaProperties actual expected] returns, and returns
    [true] exactly when every key of [expected] is a key of [actual].
    Only key membership matters: an expected key that [actual] declares
    is reported as found whatever its descriptor is, and replacing the
    descriptors of [actual] by others changes neither the result nor
    the lines printed. *)
Theorem compareSchemaProperties_subset rg actual expected out :
  valid_range rg ->
  exists allPropertiesFound,
    (compareSchemaProperties rg actual expected out).1 = Next allPropertiesFound /\
    (allPropertiesFound = true <-> dom expected ⊆ dom actual) /\
    (forall key descriptor,
       key ∈ dom expected -> actual !! key = Some descriptor ->
       PrintOK key ∈ trace (compareSchemaProperties rg actual expected) /\
       PrintFAIL key ∉ trace (compareSchemaProperties rg actual expected)) /\
    (forall actual',
       dom actual' = dom actual ->
       compareSchemaProperties rg actual' expected out
       = compareSchemaProperties rg actual expected out).
Proof.
  intros Hrg. rewrite run_compareSchemaProperties.
  eexists; split; [reflexivity|]. split; [|split].
  - now apply forallb_present_subseteq.
  - intros key descriptor Hexpected Hactual.
    unfold trace. rewrite run_compareSchemaProperties. simpl.
    assert (Hpresent : present actual key = true)
      by (apply present_true, elem_of_dom; eauto).
    split.
    + apply list_elem_of_fmap. exists key. split.
      * unfold report. now rewrite Hpresent.
      * rewrite (Hrg expected). now apply elem_of_elements.
    + intros Hfail. apply list_elem_of_fmap in Hfail as (key' & Heq & _).
      unfold report in Heq. destruct (present actual key') eqn:Hkey'.
      * discriminate.
      * injection Heq as <-. congruence.
  - intros actual' Hdom. rewrite !run_compareSchemaProperties.
    assert (Hsame : forall key, present actual' key = present actual key)
      by (intros key; now apply present_dom).
    f_equal; [f_equal|f_equal].
    + induction (rg expected) as [|key rest IH]; [reflexivity|].
      simpl. now rewrite Hsame, IH.
    + apply map_ext. intros key. unfold report. now rewrite Hsame.
Qed.

Lemma compareSchemaProperties_subset_witness :
  valid_range stored_range /\
  exists allPropertiesFound,
    (compareSchemaProperties stored_range retyped expectedSpecProperties []).1
    = Next allPropertiesFound /\
    (allPropertiesFound = true <-> dom expectedSpecProperties ⊆ dom retyped).
Proof.
  split; [exact stored_valid|].
  destruct (compareSchemaProperties_subset stored_range retyped
              expectedSpecProperties [] stored_valid)
    as (found & Hrun & Hiff & _).
  exists found. split; assumption.
Defined.

(** C7. Against an empty [actual], a non-empty [expected] gives [false],
    every key is reported missing, and the missing keys are the keys of
    [expected] in the order the loop visited them. *)
Theorem compareSchemaProperties_empty_actual rg
    (expected : gmap string JSONSchemaProps) out :
  valid_range rg ->
  expected <> ∅ ->
  compareSchemaProperties rg ∅ expected out
  = (Next false, out ++ map PrintFAIL (rg expected)) /\
  failedKeys (trace (compareSchemaProperties rg ∅ expected)) = rg expected /\
  rg expected ≡ₚ elements (dom expected).
Proof.
  intros Hrg Hnonempty.
  assert (Habsent : forall key, present (∅ : gmap string JSONSchemaProps) key = false).
  { intros key. apply present_false. rewrite dom_empty_L. apply not_elem_of_empty. }
  assert (Hlines : map (report ∅) (rg expected) = map PrintFAIL (rg expected)).
  { apply map_ext. intros key. unfold report. now rewrite Habsent. }
  split; [|split].
  - rewrite run_compareSchemaProperties, Hlines. f_equal. f_equal.
    destruct (rg expected) as [|key rest] eqn:Hkeys.
    + exfalso. apply Hnonempty. apply dom_empty_iff_L.
      apply leibniz_equiv, elements_empty_iff.
      specialize (Hrg expected). rewrite Hkeys in Hrg.
      symmetry in Hrg. now apply Permutation_nil_r in Hrg.
    + simpl. now rewrite Habsent.
  - unfold trace. rewrite run_compareSchemaProperties. simpl.
    rewrite failedKeys_report. unfold missing.
    induction (rg expected) as [|key rest IH]; [reflexivity|].
    rewrite filter_cons, decide_True by apply Habsent. now rewrite IH.
  - apply Hrg.
Qed.

Lemma compareSchemaProperties_empty_actual_witness :
  valid_range reversed_range /\
  expectedStatusProperties <> ∅ /\
  compareSchemaProperties reversed_range ∅ expectedStatusProperties []
  = (Next false, [PrintFAIL "ready"; PrintFAIL "message"]).
Proof.
  assert (Hnonempty : expectedStatusProperties <> ∅).
  { intros Hempty. apply (f_equal (fun m => m !! "ready")) in Hempty.
    vm_compute in Hempty. discriminate. }
  split; [exact reversed_valid|]. split; [exact Hnonempty|].
  refine (eq_trans (proj1 (compareSchemaProperties_empty_actual reversed_range
                  expectedStatusProperties [] reversed_valid Hnonempty)) _).
  vm_compute. reflexivity.
Defined.

(** C8. The boolean result does not depend on the order in which the
    expected keys are visited: two runs over maps with the same key sets,
    in any two orders, return the same boolean, and print the same lines
    up to their order. *)
Theorem compareSchemaProperties_order_independent rg rg'
    (actual actual' expected expected' : gmap string JSONSchemaProps) out out' :
  valid_range rg ->
  valid_range rg' ->
  dom actual = dom actual' ->
  dom expected = dom expected' ->
  (compareSchemaProperties rg actual expected out).1
  = (compareSchemaProperties rg' actual' expected' out').1 /\
  trace (compareSchemaProperties rg actual expected)
  ≡ₚ trace (compareSchemaProperties rg' actual' expected').
Proof.
  intros Hrg Hrg' Hactual Hexpected.
  unfold trace. rewrite !run_compareSchemaProperties. simpl. split.
  - f_equal. apply eq_true_iff_eq.
    rewrite !forallb_present_subseteq by assumption.
    now rewrite Hactual, Hexpected.
  - assert (Hlines : map (report actual) (rg expected)
                     = map (report actual') (rg expected)).
    { apply map_ext. intros key. unfold report.
      now rewrite (present_dom actual actual' key Hactual). }
    rewrite Hlines. apply Permutation_map.
    rewrite (Hrg expected), (Hrg' expected'). now rewrite Hexpected.
Qed.

Lemma compareSchemaProperties_order_independent_witness :
  valid_range stored_range /\
  valid_range reversed_range /\
  dom retyped = dom expectedSpecProperties /\
  (compareSchemaProperties stored_range retyped expectedSpecProperties []).1
  = (compareSchemaProperties reversed_range expectedSpecProperties retyped []).1.
Proof.
  assert (Hdom : dom retyped = dom expectedSpecProperties).
  { unfold retyped, expectedSpecProperties. now rewrite !dom_insert_L. }
  split; [exact stored_valid|]. split; [exact reversed_valid|].
  split; [exact Hdom|].
  exact (proj1 (compareSchemaProperties_order_independent
                  stored_range reversed_range
                  retyped expectedSpecProperties expectedSpecProperties retyped
                  [] [] stored_valid reversed_valid Hdom (eq_sym Hdom))).
Defined.

(** *** Reading the lines of a check *)

Lemma specPart_report_cons actual key t :
  specPart (report actual key :: t) = report actual key :: specPart t.
Proof. unfold report. now destruct (present actual key). Qed.

Lemma statusPart_report_cons actual key t :
  statusPart (report actual key :: t) = statusPart t.
Proof. unfold report. now destruct (present actual key). Qed.

Lemma conclusion_report_cons missingSpec missingStatus actual key t :
  omap (conclusion missingSpec missingStatus) (report actual key :: t)
  = omap (conclusion missingSpec missingStatus) t.
Proof. unfold report. now destruct (present actual key). Qed.

Lemma specPart_report actual keys rest :
  specPart (map (report actual) keys ++ rest)
  = map (report actual) keys ++ specPart rest.
Proof.
  induction keys as [|key keys IH]; [reflexivity|].
  cbn [map app]. now rewrite specPart_report_cons, IH.
Qed.

Lemma statusPart_report actual keys rest :
  statusPart (map (report actual) keys ++ rest) = statusPart rest.
Proof.
  induction keys as [|key keys IH]; [reflexivity|].
  cbn [map app]. now rewrite statusPart_report_cons.
Qed.

Lemma conclusion_report missingSpec missingStatus actual keys rest :
  omap (conclusion missingSpec missingStatus) (map (report actual) keys ++ rest)
  = omap (conclusion missingSpec missingStatus) rest.
Proof.
  induction keys as [|key keys IH]; [reflexivity|].
  cbn [map app]. now rewrite conclusion_report_cons.
Qed.

Lemma failedKeys_app t t' : failedKeys (t ++ t') = failedKeys t ++ failedKeys t'.
Proof. apply omap_app. Qed.

Lemma failedKeys_closing specUpToDate statusUpToDate :
  failedKeys (PrintCheckComplete :: closing specUpToDate statusUpToDate ++ [PrintBlank]) = [].
Proof. now destruct specUpToDate, statusUpToDate. Qed.

Lemma verdictOf_noStatus actual keys crdName :
  verdictOf ([LogCheckingSpec] ++ map (report actual) keys
               ++ [LogCheckingStatus; LogMissingStatus crdName])
  = Some (SectionMissing "status").
Proof.
  unfold verdictOf. cbn [app omap list_omap conclusion].
  now rewrite conclusion_report.
Qed.

Lemma verdictOf_complete actual keys actual' keys' specUpToDate statusUpToDate :
  verdictOf ([LogCheckingSpec] ++ map (report actual) keys
               ++ [LogCheckingStatus] ++ map (report actual') keys'
               ++ [PrintCheckComplete]
               ++ closing specUpToDate statusUpToDate ++ [PrintBlank])
  = Some (if specUpToDate && statusUpToDate then UpToDate
          else OutOfDate (missing actual keys) (missing actual' keys')).
Proof.
  unfold verdictOf.
  cbn [app omap list_omap conclusion specPart statusPart].
  rewrite specPart_report, statusPart_report.
  cbn [app specPart statusPart].
  rewrite app_nil_r.
  change (failedKeys (LogCheckingSpec :: map (report actual) keys))
    with (failedKeys (map (report actual) keys)).
  rewrite !failedKeys_app, !failedKeys_report.
  rewrite failedKeys_closing, !app_nil_r.
  rewrite conclusion_report.
  cbn [app omap list_omap conclusion].
  rewrite conclusion_report.
  now destruct specUpToDate, statusUpToDate.
Qed.

Lemma located_schema crd version schema :
  firstNamedV1 (Versions (Spec crd)) version ->
  Schema version = Some (MkCustomResourceValidation (Some schema)) ->
  openAPIV3SchemaOf (rangeVersions (Versions (Spec crd)) None) = Some schema.
Proof.
  intros Hfirst Hschema.
  now rewrite (rangeVersions_first _ version None Hfirst), Hschema.
Qed.

(** The orders a valid range can take on the two expected maps. *)
Lemma expectedSpec_orders rg :
  valid_range rg ->
  rg expectedSpecProperties = ["foo"; "bar"] \/
  rg expectedSpecProperties = ["bar"; "foo"].
Proof.
  intros Hrg. apply Permutation_length_2_inv.
  rewrite (Hrg expectedSpecProperties). vm_compute. reflexivity.
Qed.

Lemma expectedStatus_orders rg :
  valid_range rg ->
  rg expectedStatusProperties = ["message"; "ready"] \/
  rg expectedStatusProperties = ["ready"; "message"].
Proof.
  intros Hrg. apply Permutation_length_2_inv.
  rewrite (Hrg expectedStatusProperties). vm_compute. reflexivity.
Qed.

(** *** The verdicts of checkCRD *)

(** C2. When the schema of the first version named [v1] has both a
    [spec] and a [status] section, both sections are checked; the check
    runs to its end and concludes up-to-date exactly when both
    [compareSchemaProperties] calls return [true].  Otherwise it
    concludes out-of-date, and the keys reported missing are, for each
    section, the expected keys that the section does not declare, in
    the order visited: none for a section whose check returned [true]. *)
Theorem checkCRD_both_sections rgSpec rgStatus crdName crd
    version schema specSchema statusSchema :
  firstNamedV1 (Versions (Spec crd)) version ->
  Schema version = Some (MkCustomResourceValidation (Some schema)) ->
  Properties schema !! "spec" = Some specSchema ->
  Properties schema !! "status" = Some statusSchema ->
  exists specUpToDate statusUpToDate,
    (forall out,
       (compareSchemaProperties rgSpec (Properties specSchema)
          expectedSpecProperties out).1 = Next specUpToDate) /\
    (forall out,
       (compareSchemaProperties rgStatus (Properties statusSchema)
          expectedStatusProperties out).1 = Next statusUpToDate) /\
    (forall out, (checkCRD_typed rgSpec rgStatus crdName crd out).1 = Next tt) /\
    trace (checkCRD_typed rgSpec rgStatus crdName crd)
    = [LogCheckingSpec]
      ++ trace (compareSchemaProperties rgSpec (Properties specSchema)
                  expectedSpecProperties)
      ++ [LogCheckingStatus]
      ++ trace (compareSchemaProperties rgStatus (Properties statusSchema)
                  expectedStatusProperties)
      ++ [PrintCheckComplete]
      ++ closing specUpToDate statusUpToDate ++ [PrintBlank] /\
    (evaluate rgSpec rgStatus crdName crd = Some UpToDate
     <-> specUpToDate = true /\ statusUpToDate = true) /\
    (~ (specUpToDate = true /\ statusUpToDate = true) ->
     evaluate rgSpec rgStatus crdName crd
     = Some (OutOfDate
               (missing (Properties specSchema) (rgSpec expectedSpecProperties))
               (missing (Properties statusSchema) (rgStatus expectedStatusProperties)))) /\
    failedKeys (trace (compareSchemaProperties rgSpec (Properties specSchema)
                         expectedSpecProperties))
    = missing (Properties specSchema) (rgSpec expectedSpecProperties) /\
    failedKeys (trace (compareSchemaProperties rgStatus (Properties statusSchema)
                         expectedStatusProperties))
    = missing (Properties statusSchema) (rgStatus expectedStatusProperties) /\
    (specUpToDate = true ->
     missing (Properties specSchema) (rgSpec expectedSpecProperties) = []) /\
    (statusUpToDate = true ->
     missing (Properties statusSchema) (rgStatus expectedStatusProperties) = []).
Proof.
  intros Hfirst Hschema Hspec Hstatus.
  pose proof (located_schema crd version schema Hfirst Hschema) as Hlocated.
  exists (forallb (present (Properties specSchema)) (rgSpec expectedSpecProperties)),
         (forallb (present (Properties statusSchema)) (rgStatus expectedStatusProperties)).
  assert (Hverdict := verdictOf_complete
            (Properties specSchema) (rgSpec expectedSpecProperties)
            (Properties statusSchema) (rgStatus expectedStatusProperties)
            (forallb (present (Properties specSchema)) (rgSpec expectedSpecProperties))
            (forallb (present (Properties statusSchema)) (rgStatus expectedStatusProperties))).
  assert (Hrun := run_checkCRD_complete rgSpec rgStatus crdName crd
            schema specSchema statusSchema [] Hlocated Hspec Hstatus).
  unfold evaluate, trace. rewrite Hrun. cbn [snd]. rewrite app_nil_l, Hverdict.
  repeat split.
  - intros out. now rewrite run_compareSchemaProperties.
  - intros out. now rewrite run_compareSchemaProperties.
  - intros out.
    now rewrite (run_checkCRD_complete rgSpec rgStatus crdName crd
                   schema specSchema statusSchema out Hlocated Hspec Hstatus).
  - now rewrite !run_compareSchemaProperties.
  - destruct (forallb _ (rgSpec _)); [|discriminate]. reflexivity.
  - destruct (forallb _ (rgSpec _)), (forallb _ (rgStatus _)); try discriminate.
    reflexivity.
  - intros [-> ->]. reflexivity.
  - intros Hnot.
    destruct (forallb _ (rgSpec _)), (forallb _ (rgStatus _)); try reflexivity.
    exfalso. apply Hnot. now split.
  - rewrite run_compareSchemaProperties. apply failedKeys_report.
  - rewrite run_compareSchemaProperties. apply failedKeys_report.
  - apply missing_nil.
  - apply missing_nil.
Qed.

Lemma singleVersion_first properties :
  firstNamedV1 (Versions (Spec (singleVersionCRD properties)))
    (v1Version properties).
Proof. exists [], []. repeat split. constructor. Qed.

Lemma checkCRD_both_sections_witness :
  let properties :=
    <["spec" := object retyped]> (<["status" := object ∅]> ∅) in
  firstNamedV1 (Versions (Spec (singleVersionCRD properties)))
    (v1Version properties) /\
  Properties (object properties) !! "spec" = Some (object retyped) /\
  Properties (object properties) !! "status" = Some (object ∅) /\
  exists specUpToDate statusUpToDate,
    (evaluate stored_range reversed_range "retyped"
       (singleVersionCRD properties) = Some UpToDate
     <-> specUpToDate = true /\ statusUpToDate = true) /\
    (~ (specUpToDate = true /\ statusUpToDate = true) ->
     evaluate stored_range reversed_range "retyped"
       (singleVersionCRD properties)
     = Some (OutOfDate
               (missing retyped (stored_range expectedSpecProperties))
               (missing ∅ (reversed_range expectedStatusProperties)))).
Proof.
  intros properties.
  assert (Hspec : Properties (object properties) !! "spec" = Some (object retyped))
    by (vm_compute; reflexivity).
  assert (Hstatus : Properties (object properties) !! "status" = Some (object ∅))
    by (vm_compute; reflexivity).
  split; [apply singleVersion_first|]. split; [exact Hspec|]. split; [exact Hstatus|].
  destruct (checkCRD_both_sections stored_range reversed_range "retyped"
              (singleVersionCRD properties) _ (object properties)
              (object retyped) (object ∅)
              (singleVersion_first properties) eq_refl Hspec Hstatus)
    as (specUpToDate & statusUpToDate & _ & _ & _ & _ & Hup & Hout & _).
  exists specUpToDate, statusUpToDate. split; assumption.
Defined.

(** C3. When no version is named [v1], or the first version named [v1]
    has no schema object (no [schema], or a [schema] without
    [openAPIV3Schema]), the check prints the one line that the v1 schema
    could not be found and returns: the same line in both cases, and no
    section header or property line, whatever the orders of the loops. *)
Theorem checkCRD_version_not_found rgSpec rgStatus crdName crd out :
  Forall (fun version => Name version <> "v1") (Versions (Spec crd)) \/
  (exists version,
     firstNamedV1 (Versions (Spec crd)) version /\
     openAPIV3SchemaOf (Schema version) = None) ->
  checkCRD_typed rgSpec rgStatus crdName crd out
  = (Return, out ++ [LogNoV1Schema crdName]) /\
  evaluate rgSpec rgStatus crdName crd = Some VersionNotFound.
Proof.
  intros Habsent.
  assert (Hlocated :
    openAPIV3SchemaOf (rangeVersions (Versions (Spec crd)) None) = None).
  { destruct Habsent as [Hnone | (version & Hfirst & Hschema)].
    - now rewrite rangeVersions_unnamed.
    - now rewrite (rangeVersions_first _ version None Hfirst). }
  split.
  - now apply run_checkCRD_noSchema.
  - unfold evaluate, trace.
    now rewrite (run_checkCRD_noSchema rgSpec rgStatus crdName crd [] Hlocated).
Qed.

Lemma checkCRD_version_not_found_witness :
  (Forall (fun version => Name version <> "v1") (Versions (Spec onlyV2CRD)) /\
   evaluate stored_range stored_range "only v2" onlyV2CRD
   = Some VersionNotFound) /\
  ((exists version,
      firstNamedV1 (Versions (Spec schemalessCRD)) version /\
      openAPIV3SchemaOf (Schema version) = None) /\
   evaluate stored_range stored_range "no schema" schemalessCRD
   = Some VersionNotFound).
Proof.
  assert (Hv2 : Forall (fun version => Name version <> "v1")
                  (Versions (Spec onlyV2CRD))).
  { repeat constructor. simpl. discriminate. }
  assert (Hschemaless : exists version,
            firstNamedV1 (Versions (Spec schemalessCRD)) version /\
            openAPIV3SchemaOf (Schema version) = None).
  { exists (MkCustomResourceDefinitionVersion "v1" None). split; [|reflexivity].
    exists [], []. repeat split. constructor. }
  split; (split; [assumption|]).
  - exact (proj2 (checkCRD_version_not_found stored_range stored_range
                    "only v2" onlyV2CRD [] (or_introl Hv2))).
  - exact (proj2 (checkCRD_version_not_found stored_range stored_range
                    "no schema" schemalessCRD [] (or_intror Hschemaless))).
Defined.

(** C4. When the located v1 schema has no [spec] property, the check
    prints the spec header and the line that [spec] is missing, and
    returns.  No property line is printed and the status header is
    never reached: the status section is not looked at. *)
Theorem checkCRD_spec_missing rgSpec rgStatus crdName crd version schema out :
  firstNamedV1 (Versions (Spec crd)) version ->
  Schema version = Some (MkCustomResourceValidation (Some schema)) ->
  Properties schema !! "spec" = None ->
  checkCRD_typed rgSpec rgStatus crdName crd out
  = (Return, out ++ [LogCheckingSpec; LogMissingSpec crdName]) /\
  evaluate rgSpec rgStatus crdName crd = Some (SectionMissing "spec").
Proof.
  intros Hfirst Hschema Hspec.
  pose proof (located_schema crd version schema Hfirst Hschema) as Hlocated.
  split.
  - now apply run_checkCRD_noSpec with schema.
  - unfold evaluate, trace.
    now rewrite (run_checkCRD_noSpec rgSpec rgStatus crdName crd schema []
                   Hlocated Hspec).
Qed.

Lemma checkCRD_spec_missing_witness :
  let properties :=
    <["status" := object (<["message" := scalar "string" ""]> ∅)]> ∅ in
  firstNamedV1 (Versions (Spec noSpecCRD))
    (v1Version properties) /\
  Properties (object properties) !! "spec" = None /\
  checkCRD_typed stored_range stored_range "no spec" noSpecCRD []
  = (Return, [LogCheckingSpec; LogMissingSpec "no spec"]) /\
  evaluate stored_range stored_range "no spec" noSpecCRD
  = Some (SectionMissing "spec").
Proof.
  intros properties.
  assert (Hspec : Properties (object properties) !! "spec" = None)
    by (vm_compute; reflexivity).
  split; [apply singleVersion_first|]. split; [exact Hspec|].
  exact (checkCRD_spec_missing stored_range stored_range "no spec"
           noSpecCRD _ (object properties) []
           (singleVersion_first properties) eq_refl Hspec).
Defined.

(** C5. When the located v1 schema has a [spec] section and no [status]
    property, the spec check runs first and its lines are printed, one
    per expected key; then the status header and the line that [status]
    is missing follow, and the check returns. *)
Theorem checkCRD_status_missing rgSpec rgStatus crdName crd
    version schema specSchema out :
  firstNamedV1 (Versions (Spec crd)) version ->
  Schema version = Some (MkCustomResourceValidation (Some schema)) ->
  Properties schema !! "spec" = Some specSchema ->
  Properties schema !! "status" = None ->
  exists specUpToDate specOut,
    compareSchemaProperties rgSpec (Properties specSchema)
      expectedSpecProperties (out ++ [LogCheckingSpec])
    = (Next specUpToDate, specOut) /\
    specOut = out ++ [LogCheckingSpec]
                  ++ map (report (Properties specSchema))
                       (rgSpec expectedSpecProperties) /\
    checkCRD_typed rgSpec rgStatus crdName crd out
    = (Return, specOut ++ [LogCheckingStatus; LogMissingStatus crdName]) /\
    evaluate rgSpec rgStatus crdName crd = Some (SectionMissing "status").
Proof.
  intros Hfirst Hschema Hspec Hstatus.
  pose proof (located_schema crd version schema Hfirst Hschema) as Hlocated.
  rewrite run_compareSchemaProperties.
  eexists _, _. split; [reflexivity|]. split; [now rewrite <- app_assoc|].
  split.
  - rewrite (run_checkCRD_noStatus rgSpec rgStatus crdName crd schema specSchema
               out Hlocated Hspec Hstatus).
    now rewrite <- !app_assoc.
  - unfold evaluate, trace.
    rewrite (run_checkCRD_noStatus rgSpec rgStatus crdName crd schema specSchema
               [] Hlocated Hspec Hstatus).
    cbn [snd]. rewrite app_nil_l. apply verdictOf_noStatus.
Qed.

Lemma checkCRD_status_missing_witness :
  let specSchema := object (<["foo" := scalar "string" ""]> ∅) in
  let properties := <["spec" := specSchema]> ∅ in
  firstNamedV1 (Versions (Spec noStatusCRD))
    (v1Version properties) /\
  Properties (object properties) !! "spec" = Some specSchema /\
  Properties (object properties) !! "status" = None /\
  checkCRD_typed stored_range stored_range "no status" noStatusCRD []
  = (Return, [LogCheckingSpec; PrintOK "foo"; PrintFAIL "bar";
              LogCheckingStatus; LogMissingStatus "no status"]) /\
  evaluate stored_range stored_range "no status" noStatusCRD
  = Some (SectionMissing "status").
Proof.
  intros specSchema properties.
  assert (Hspec : Properties (object properties) !! "spec" = Some specSchema)
    by (vm_compute; reflexivity).
  assert (Hstatus : Properties (object properties) !! "status" = None)
    by (vm_compute; reflexivity).
  split; [apply singleVersion_first|]. split; [exact Hspec|]. split; [exact Hstatus|].
  destruct (checkCRD_status_missing stored_range stored_range "no status"
              noStatusCRD _ (object properties) specSchema []
              (singleVersion_first properties) eq_refl Hspec Hstatus)
    as (specUpToDate & specOut & _ & -> & Hrun & Hverdict).
  split; [|exact Hverdict].
  refine (eq_trans Hrun _). vm_compute. reflexivity.
Defined.

(** C6. The out-of-date document (version [v1], [spec] properties
    [foo], [status] properties [message]) is found out-of-date, with
    [bar] the one key missing from [spec] and [ready] the one key
    missing from [status], in whatever order the loops visit the
    expected keys.  The lines printed are the two headers, each followed
    by its two property lines in the order visited, and the out-of-date
    conclusion with both sections named. *)
Theorem checkCRD_mockOutOfDate rgSpec rgStatus crdName :
  valid_range rgSpec ->
  valid_range rgStatus ->
  evaluate rgSpec rgStatus crdName mockOutOfDateCRD
  = Some (OutOfDate ["bar"] ["ready"]) /\
  exists specLines statusLines,
    checkCRD_typed rgSpec rgStatus crdName mockOutOfDateCRD []
    = (Next tt,
       [LogCheckingSpec] ++ specLines ++ [LogCheckingStatus] ++ statusLines
       ++ [PrintCheckComplete; LogOutOfDate; LogSpecMissing; LogStatusMissing;
           PrintBlank]) /\
    specLines ≡ₚ [PrintOK "foo"; PrintFAIL "bar"] /\
    statusLines ≡ₚ [PrintOK "message"; PrintFAIL "ready"].
Proof.
  intros HrgSpec HrgStatus.
  unfold evaluate, trace, checkCRD_typed, compareSchemaProperties.
  destruct (expectedSpec_orders rgSpec HrgSpec) as [-> | ->],
           (expectedStatus_orders rgStatus HrgStatus) as [-> | ->];
    (split; [vm_compute; reflexivity|]);
    eexists [_; _], [_; _];
    (split; [vm_compute; reflexivity|]);
    split; first [reflexivity | apply perm_swap].
Qed.

Lemma checkCRD_mockOutOfDate_witness :
  valid_range reversed_range /\
  valid_range stored_range /\
  evaluate reversed_range stored_range "Out-of-Date CRD" mockOutOfDateCRD
  = Some (OutOfDate ["bar"] ["ready"]).
Proof.
  split; [exact reversed_valid|]. split; [exact stored_valid|].
  exact (proj1 (checkCRD_mockOutOfDate reversed_range stored_range
                  "Out-of-Date CRD" reversed_valid stored_valid)).
Defined.

(** C10. The schema checked is that of the first version named [v1]:
    the entries after it, whatever they are named, change nothing, and
    the check behaves as on the document with that version alone. *)
Theorem checkCRD_first_v1 rgSpec rgStatus crdName before version after out :
  Forall (fun earlier => Name earlier <> "v1") before ->
  Name version = "v1" ->
  rangeVersions (before ++ version :: after) None = Schema version /\
  checkCRD_typed rgSpec rgStatus crdName
    (MkCustomResourceDefinition
       (MkCustomResourceDefinitionSpec (before ++ version :: after))) out
  = checkCRD_typed rgSpec rgStatus crdName
      (MkCustomResourceDefinition (MkCustomResourceDefinitionSpec [version])) out.
Proof.
  intros Hbefore Hname.
  assert (Hfirst : firstNamedV1 (before ++ version :: after) version)
    by (exists before, after; auto).
  assert (Halone : firstNamedV1 [version] version)
    by (exists [], []; repeat split; auto).
  split; [now apply rangeVersions_first|].
  unfold checkCRD_typed. cbn [Versions Spec].
  now rewrite (rangeVersions_first _ version None Hfirst),
              (rangeVersions_first _ version None Halone).
Qed.

Lemma checkCRD_first_v1_witness :
  Forall (fun earlier => Name earlier <> "v1") [] /\
  Name (v1Version outOfDateProperties) = "v1" /\
  checkCRD_typed stored_range stored_range "twice v1" twiceV1CRD []
  = checkCRD_typed stored_range stored_range "twice v1" mockOutOfDateCRD [].
Proof.
  split; [constructor|]. split; [reflexivity|].
  exact (proj2 (checkCRD_first_v1 stored_range stored_range "twice v1" []
                  (v1Version outOfDateProperties)
                  [v1Version upToDateProperties] []
                  (List.Forall_nil _) eq_refl)).
Defined.

End CrdCheckFacts.

(** ** Properties of the file-writing program *)

Module FileWriterFacts.

Import FileWriter.

Lemma append_assoc (s1 s2 s3 : string) :
  (s1 +:+ s2) +:+ s3 = s1 +:+ s2 +:+ s3.
Proof.
  induction s1 as [|c s1 IH]; [reflexivity|].
  change (String c ((s1 +:+ s2) +:+ s3) = String c (s1 +:+ s2 +:+ s3)).
  now rewrite IH.
Qed.

Lemma output_error_distinct timestamp :
  filepath_Join "results" (outputName timestamp)
  <> filepath_Join "results" (errorName timestamp).
Proof. cbv [filepath_Join outputName errorName String.append]. discriminate. Qed.

Ltac run_main :=
  unfold main, time_Now_Format, os_MkdirAll, os_Create, fmt_Fprintf_Stderr,
    fmt_Println, fmt_Fprintln;
  unfold mbind, mret, Proc_mbind, Proc_mret, bind, ret, modify, os_Exit.

(** C9. With [outputFile] and [errorFile] the two timestamped paths
    under [results]:
    - when the directory and both files can be created, the program
      exits with code 0, has printed the two lines on standard output
      and nothing on standard error, the output file holds the same two
      lines and the error file is empty;
    - when the directory, the output file or the error file cannot be
      created, the program exits with code 1 after writing one message
      with the error on standard error, and prints nothing on standard
      output. *)
Theorem main_outcome sys w :
  let outputFile := filepath_Join "results" (outputName (clock sys)) in
  let errorFile := filepath_Join "results" (errorName (clock sys)) in
  let line1 := "Hello from Go Playground!" +:+ nl in
  let line2 := "This is a simple Go program that runs to completion." +:+ nl in
  (mkdirError sys "results" = None ->
   createError sys outputFile = None ->
   createError sys errorFile = None ->
   exists w',
     main sys w = (Exit 0, w') /\
     stdout w' = stdout w +:+ line1 +:+ line2 /\
     stderr w' = stderr w /\
     "results" ∈ dirs w' /\
     files w' !! outputFile = Some (line1 +:+ line2) /\
     files w' !! errorFile = Some "") /\
  (forall err,
     mkdirError sys "results" = Some err ->
     main sys w
     = (Exit 1,
        MkWorld (stdout w)
          (stderr w +:+ "Error creating results directory: " +:+ err +:+ nl)
          (dirs w) (files w))) /\
  (forall err,
     mkdirError sys "results" = None ->
     createError sys outputFile = Some err ->
     exists w',
       main sys w = (Exit 1, w') /\
       stdout w' = stdout w /\
       stderr w' = stderr w +:+ "Error creating output file: " +:+ err +:+ nl /\
       files w' = files w) /\
  (forall err,
     mkdirError sys "results" = None ->
     createError sys outputFile = None ->
     createError sys errorFile = Some err ->
     exists w',
       main sys w = (Exit 1, w') /\
       stdout w' = stdout w /\
       stderr w' = stderr w +:+ "Error creating error file: " +:+ err +:+ nl /\
       files w' = <[outputFile := ""]> (files w)).
Proof.
  intros outputFile errorFile line1 line2.
  pose proof (output_error_distinct (clock sys)) as Hdistinct.
  fold outputFile errorFile in Hdistinct.
  split; [|split; [|split]].
  - intros Hdir Hout Herr. run_main. rewrite Hdir.
    fold outputFile. rewrite Hout. cbn [stdout stderr dirs files].
    fold errorFile. rewrite Herr. cbn [stdout stderr dirs files].
    eexists. split; [reflexivity|]. cbn [stdout stderr dirs files].
    repeat split.
    + fold nl line1 line2. apply append_assoc.
    + apply elem_of_union_l, elem_of_singleton. reflexivity.
    + rewrite !lookup_alter_eq, lookup_insert_ne, lookup_insert_eq by congruence.
      reflexivity.
    + rewrite !lookup_alter_ne, lookup_insert_eq by assumption. reflexivity.
  - intros err Hdir. run_main. now rewrite Hdir.
  - intros err Hdir Hout. run_main. rewrite Hdir.
    fold outputFile. rewrite Hout. cbn [stdout stderr dirs files].
    eexists. split; [reflexivity|]. now repeat split.
  - intros err Hdir Hout Herr. run_main. rewrite Hdir.
    fold outputFile. rewrite Hout. cbn [stdout stderr dirs files].
    fold errorFile. rewrite Herr. cbn [stdout stderr dirs files].
    eexists. split; [reflexivity|]. now repeat split.
Qed.

Lemma main_outcome_witness :
  let sys := obliging "20261031-055500" in
  mkdirError sys "results" = None /\
  createError sys "results/output-20261031-055500.txt" = None /\
  createError sys "results/error-20261031-055500.txt" = None /\
  exists w',
    main sys pristine = (Exit 0, w') /\
    stdout w' = "Hello from Go Playground!" +:+ nl
                +:+ "This is a simple Go program that runs to completion." +:+ nl /\
    stderr w' = "" /\
    "results" ∈ dirs w' /\
    files w' !! "results/output-20261031-055500.txt"
    = Some ("Hello from Go Playground!" +:+ nl
            +:+ "This is a simple Go program that runs to completion." +:+ nl) /\
    files w' !! "results/error-20261031-055500.txt" = Some "".
Proof.
  intros sys. repeat (split; [reflexivity|]).
  exact (proj1 (main_outcome sys pristine) eq_refl eq_refl eq_refl).
Defined.

(** The error file cannot be created: exit code 1, one message on
    standard error, and the output file is left created and empty. *)
Example main_error_file_refused :
  let sys := refusing "20261031-055500" "results/error-" in
  exists w',
    main sys pristine = (Exit 1, w') /\
    stdout w' = "" /\
    stderr w' = "Error creating error file: permission denied" +:+ nl /\
    files w' !! "results/output-20261031-055500.txt" = Some "" /\
    files w' !! "results/error-20261031-055500.txt" = None.
Proof.
  intros sys. eexists. split; [vm_compute; reflexivity|].
  repeat split.
Qed.

End FileWriterFacts.

(** ** Further properties of compareSchemaProperties *)

Module CompareFacts.

Import CrdCheck CrdCheckFacts.

Lemma valid_range_NoDup rg (m : gmap string JSONSchemaProps) :
  valid_range rg -> NoDup (rg m).
Proof. intros Hrg. rewrite (Hrg m). apply NoDup_elements. Qed.

Lemma valid_range_elem rg (m : gmap string JSONSchemaProps) key :
  valid_range rg -> key ∈ rg m <-> key ∈ dom m.
Proof. intros Hrg. rewrite (Hrg m). apply elem_of_elements. Qed.

#[local] Instance report_inj actual : Inj (=) (=) (report actual).
Proof.
  intros key key'. unfold report.
  destruct (present actual key), (present actual key'); congruence.
Qed.

(** X1. With nothing expected, [compareSchemaProperties] returns [true]
    and prints nothing, whatever [actual] is. *)
Theorem compareSchemaProperties_empty_expected rg actual out :
  valid_range rg ->
  compareSchemaProperties rg actual ∅ out = (Next true, out).
Proof.
  intros Hrg. rewrite run_compareSchemaProperties.
  assert (Hkeys : rg ∅ = []).
  { apply Permutation_nil_r. rewrite (Hrg ∅), dom_empty_L.
    now rewrite elements_empty. }
  rewrite Hkeys. simpl. now rewrite app_nil_r.
Qed.

Lemma compareSchemaProperties_empty_expected_witness :
  valid_range reversed_range /\
  compareSchemaProperties reversed_range retyped ∅ [LogCheckingSpec]
  = (Next true, [LogCheckingSpec]).
Proof.
  split; [exact reversed_valid|].
  exact (compareSchemaProperties_empty_expected reversed_range retyped
           [LogCheckingSpec] reversed_valid).
Defined.

(** X2. [compareSchemaProperties] keeps what was printed before and adds
    one line for each expected key and no other: as many lines as
    [expected] has keys, no line twice, and a line is printed exactly
    when it is the [OK] line of an expected key that [actual] declares or
    the [FAIL] line of an expected key that it does not. *)
Theorem compareSchemaProperties_one_line_per_key rg
    (actual expected : gmap string JSONSchemaProps) out :
  valid_range rg ->
  exists lines,
    (compareSchemaProperties rg actual expected out).2 = out ++ lines /\
    length lines = size expected /\
    NoDup lines /\
    (forall l,
       l ∈ lines <->
       exists key,
         key ∈ dom expected /\
         ((key ∈ dom actual /\ l = PrintOK key) \/
          ((key ∉ dom actual) /\ l = PrintFAIL key))).
Proof.
  intros Hrg. rewrite run_compareSchemaProperties.
  exists (map (report actual) (rg expected)). cbn [snd].
  split; [reflexivity|]. split; [|split].
  - rewrite length_map, (Hrg expected).
    rewrite <- size_dom. reflexivity.
  - apply (NoDup_fmap_2 (report actual)). now apply valid_range_NoDup.
  - intros l. rewrite list_elem_of_fmap. split.
    + intros (key & -> & Hkey). exists key.
      apply (valid_range_elem rg expected key Hrg) in Hkey.
      split; [exact Hkey|]. unfold report.
      destruct (present actual key) eqn:Hpresent.
      * left. split; [now apply present_true|reflexivity].
      * right. split; [now apply present_false|reflexivity].
    + intros (key & Hkey & Hline). exists key.
      split; [|now apply (valid_range_elem rg expected key Hrg)].
      unfold report.
      destruct Hline as [[Hin ->] | [Hnotin ->]].
      * apply present_true in Hin. now rewrite Hin.
      * apply present_false in Hnotin. now rewrite Hnotin.
Qed.

Lemma compareSchemaProperties_one_line_per_key_witness :
  valid_range stored_range /\
  exists lines,
    (compareSchemaProperties stored_range ∅ expectedSpecProperties
       [LogCheckingSpec]).2 = [LogCheckingSpec] ++ lines /\
    length lines = size expectedSpecProperties /\
    NoDup lines.
Proof.
  split; [exact stored_valid|].
  destruct (compareSchemaProperties_one_line_per_key stored_range ∅
              expectedSpecProperties [LogCheckingSpec] stored_valid)
    as (lines & Hrun & Hlength & Hnodup & _).
  exists lines. repeat split; assumption.
Defined.

(** X3. The keys reported missing are exactly the expected keys that
    [actual] does not declare, each once; and the result is [true]
    exactly when no key is reported missing. *)
Theorem compareSchemaProperties_missing_keys rg
    (actual expected : gmap string JSONSchemaProps) out :
  valid_range rg ->
  failedKeys (trace (compareSchemaProperties rg actual expected))
  ≡ₚ elements (dom expected ∖ dom actual) /\
  ((compareSchemaProperties rg actual expected out).1 = Next true
   <-> failedKeys (trace (compareSchemaProperties rg actual expected)) = []).
Proof.
  intros Hrg. unfold trace. rewrite !run_compareSchemaProperties.
  cbn [fst snd app]. rewrite failedKeys_report. split.
  - apply NoDup_Permutation.
    + unfold missing. apply NoDup_filter. now apply valid_range_NoDup.
    + apply NoDup_elements.
    + intros key. unfold missing.
      rewrite list_elem_of_filter, elem_of_elements, elem_of_difference.
      rewrite present_false, (valid_range_elem rg expected key Hrg).
      tauto.
  - rewrite missing_nil. split; [now intros [= ->]|now intros ->].
Qed.

Lemma compareSchemaProperties_missing_keys_witness :
  valid_range stored_range /\
  failedKeys (trace (compareSchemaProperties stored_range
                       (<["foo" := scalar "string" ""]> ∅) expectedSpecProperties))
  ≡ₚ elements (dom expectedSpecProperties
               ∖ dom (<["foo" := scalar "string" ""]> ∅ : gmap string JSONSchemaProps)).
Proof.
  split; [exact stored_valid|].
  exact (proj1 (compareSchemaProperties_missing_keys stored_range
                  (<["foo" := scalar "string" ""]> ∅) expectedSpecProperties []
                  stored_valid)).
Defined.

(** X4. Declaring more properties never hurts: when [actual'] declares
    every key that [actual] declares, the keys reported missing for
    [actual'] are among those reported for [actual], in the same order,
    and a check that passed for [actual] passes for [actual']. *)
Theorem compareSchemaProperties_monotone rg
    (actual actual' expected : gmap string JSONSchemaProps) out out' :
  dom actual ⊆ dom actual' ->
  failedKeys (trace (compareSchemaProperties rg actual' expected))
  `sublist_of` failedKeys (trace (compareSchemaProperties rg actual expected)) /\
  ((compareSchemaProperties rg actual expected out).1 = Next true ->
   (compareSchemaProperties rg actual' expected out').1 = Next true).
Proof.
  intros Hsub.
  assert (Hpresent : forall key,
            present actual key = true -> present actual' key = true).
  { intros key. rewrite !present_true. apply Hsub. }
  unfold trace. rewrite !run_compareSchemaProperties.
  cbn [fst snd app]. rewrite !failedKeys_report. unfold missing. split.
  - induction (rg expected) as [|key keys IH]; [constructor|].
    rewrite !filter_cons.
    destruct (present actual key) eqn:Hkey.
    + rewrite (Hpresent key Hkey).
      rewrite !decide_False by discriminate. exact IH.
    + rewrite (decide_True (P := false = false)) by reflexivity.
      destruct (decide (present actual' key = false)).
      * now apply sublist_skip.
      * now apply sublist_cons.
  - intros [= Hall]. f_equal.
    apply forallb_forall. intros key Hkey. apply Hpresent.
    rewrite forallb_forall in Hall. now apply Hall.
Qed.

Lemma compareSchemaProperties_monotone_witness :
  dom (∅ : gmap string JSONSchemaProps) ⊆ dom retyped /\
  failedKeys (trace (compareSchemaProperties stored_range retyped
                       expectedSpecProperties))
  `sublist_of` failedKeys (trace (compareSchemaProperties stored_range ∅
                                    expectedSpecProperties)).
Proof.
  assert (Hsub : dom (∅ : gmap string JSONSchemaProps) ⊆ dom retyped).
  { rewrite dom_empty_L. apply empty_subseteq. }
  split; [exact Hsub|].
  exact (proj1 (compareSchemaProperties_monotone stored_range ∅ retyped
                  expectedSpecProperties [] [] Hsub)).
Defined.

(** X5. Passing the check is reflexive and transitive: a property set
    passes against itself, and when [middle] passes against [expected]
    and [actual] passes against [middle], [actual] passes against
    [expected]. *)
Theorem compareSchemaProperties_preorder rg rg' rg''
    (actual middle expected : gmap string JSONSchemaProps) out out' out'' :
  valid_range rg ->
  valid_range rg' ->
  valid_range rg'' ->
  (compareSchemaProperties rg actual actual out).1 = Next true /\
  ((compareSchemaProperties rg actual middle out).1 = Next true ->
   (compareSchemaProperties rg' middle expected out').1 = Next true ->
   (compareSchemaProperties rg'' actual expected out'').1 = Next true).
Proof.
  intros Hrg Hrg' Hrg''. rewrite !run_compareSchemaProperties. cbn [fst].
  split.
  - f_equal. now apply forallb_present_subseteq.
  - intros [= Hmiddle] [= Hexpected]. f_equal.
    apply forallb_present_subseteq; [assumption|].
    apply forallb_present_subseteq in Hmiddle, Hexpected; try assumption.
    now transitivity (dom middle).
Qed.

Lemma compareSchemaProperties_preorder_witness :
  valid_range stored_range /\
  valid_range reversed_range /\
  (compareSchemaProperties stored_range retyped retyped []).1 = Next true.
Proof.
  split; [exact stored_valid|]. split; [exact reversed_valid|].
  exact (proj1 (compareSchemaProperties_preorder
                  stored_range reversed_range stored_range
                  retyped expectedSpecProperties ∅ [] [] []
                  stored_valid reversed_valid stored_valid)).
Defined.

End CompareFacts.

(** ** Further properties of checkCRD and main *)

Module CheckFacts.

Import CrdCheck CrdCheckFacts Fixtures.

Lemma rangeVersions_Some_first versions validation :
  rangeVersions versions None = Some validation ->
  exists version,
    firstNamedV1 versions version /\ Schema version = Some validation.
Proof.
  induction versions as [|earlier rest IH]; simpl; [discriminate|].
  destruct (String.eqb (Name earlier) "v1") eqn:Hname.
  - intros Hschema. exists earlier. split; [|exact Hschema].
    exists [], rest. repeat split; [constructor|now apply String.eqb_eq].
  - intros Hrest. destruct (IH Hrest) as (version & Hfirst & Hschema).
    exists version. split; [|exact Hschema].
    destruct Hfirst as (before & after & -> & Hbefore & Hversion).
    exists (earlier :: before), after. repeat split; [|exact Hversion].
    constructor; [now apply String.eqb_neq|exact Hbefore].
Qed.

Lemma located_first crd schema :
  openAPIV3SchemaOf (rangeVersions (Versions (Spec crd)) None) = Some schema ->
  exists version,
    firstNamedV1 (Versions (Spec crd)) version /\
    Schema version = Some (MkCustomResourceValidation (Some schema)).
Proof.
  destruct (rangeVersions (Versions (Spec crd)) None) as [[validation]|] eqn:Hrange;
    simpl; [|discriminate].
  intros ->. now apply rangeVersions_Some_first.
Qed.

Lemma report_dom actual actual' keys :
  dom actual = dom actual' ->
  map (report actual) keys = map (report actual') keys /\
  forallb (present actual) keys = forallb (present actual') keys.
Proof.
  intros Hdom.
  assert (Hsame : forall key, present actual key = present actual' key)
    by (intros key; now apply present_dom).
  split.
  - apply map_ext. intros key. unfold report. now rewrite Hsame.
  - induction keys as [|key keys IH]; [reflexivity|].
    simpl. now rewrite Hsame, IH.
Qed.

Lemma expectedSpec_declared (actual : gmap string JSONSchemaProps) :
  dom expectedSpecProperties ⊆ dom actual
  <-> is_Some (actual !! "foo") /\ is_Some (actual !! "bar").
Proof.
  unfold expectedSpecProperties.
  rewrite !dom_insert_L, dom_empty_L, <- !elem_of_dom.
  rewrite !union_subseteq, !singleton_subseteq_l.
  pose proof (empty_subseteq (dom actual)). tauto.
Qed.

Lemma expectedStatus_declared (actual : gmap string JSONSchemaProps) :
  dom expectedStatusProperties ⊆ dom actual
  <-> is_Some (actual !! "message") /\ is_Some (actual !! "ready").
Proof.
  unfold expectedStatusProperties.
  rewrite !dom_insert_L, dom_empty_L, <- !elem_of_dom.
  rewrite !union_subseteq, !singleton_subseteq_l.
  pose proof (empty_subseteq (dom actual)). tauto.
Qed.

Lemma conclusions_complete actual keys actual' keys' specUpToDate statusUpToDate :
  length (omap (conclusion [] [])
            ([LogCheckingSpec] ++ map (report actual) keys
             ++ [LogCheckingStatus] ++ map (report actual') keys'
             ++ [PrintCheckComplete]
             ++ closing specUpToDate statusUpToDate ++ [PrintBlank])) = 1%nat.
Proof.
  cbn [app omap list_omap conclusion]. rewrite conclusion_report.
  cbn [app omap list_omap conclusion]. rewrite conclusion_report.
  now destruct specUpToDate, statusUpToDate.
Qed.

(** The check of a typed document ends by falling off its end or by an
    early return, and adds its lines to those printed before. *)
Lemma checkCRD_typed_runs rgSpec rgStatus crdName crd :
  exists ending,
    (ending = Next tt \/ ending = Return) /\
    forall out,
      checkCRD_typed rgSpec rgStatus crdName crd out
      = (ending, out ++ trace (checkCRD_typed rgSpec rgStatus crdName crd)).
Proof.
  unfold trace.
  destruct (openAPIV3SchemaOf (rangeVersions (Versions (Spec crd)) None))
    as [schema|] eqn:Hschema.
  - destruct (Properties schema !! "spec") as [specSchema|] eqn:Hspec.
    + destruct (Properties schema !! "status") as [statusSchema|] eqn:Hstatus.
      * exists (Next tt). split; [now left|]. intros out.
        now rewrite !(run_checkCRD_complete rgSpec rgStatus crdName crd
                        schema specSchema statusSchema _ Hschema Hspec Hstatus).
      * exists Return. split; [now right|]. intros out.
        now rewrite !(run_checkCRD_noStatus rgSpec rgStatus crdName crd
                        schema specSchema _ Hschema Hspec Hstatus).
    + exists Return. split; [now right|]. intros out.
      now rewrite !(run_checkCRD_noSpec rgSpec rgStatus crdName crd
                      schema _ Hschema Hspec).
  - exists Return. split; [now right|]. intros out.
    now rewrite !(run_checkCRD_noSchema rgSpec rgStatus crdName crd _ Hschema).
Qed.

(** X6. Every typed document gets one verdict.  The check never ends
    the process; it prints exactly one concluding line; it runs to its
    end exactly when the verdict is up-to-date or out-of-date, and
    returns early exactly when the version or a section is not found.
    What was printed before is kept. *)
Theorem checkCRD_typed_one_verdict rgSpec rgStatus crdName crd out :
  exists ending verdict,
    checkCRD_typed rgSpec rgStatus crdName crd out
    = (ending, out ++ trace (checkCRD_typed rgSpec rgStatus crdName crd)) /\
    evaluate rgSpec rgStatus crdName crd = Some verdict /\
    length (omap (conclusion [] [])
              (trace (checkCRD_typed rgSpec rgStatus crdName crd))) = 1%nat /\
    ((ending = Next tt /\
      (verdict = UpToDate \/
       exists missingSpec missingStatus,
         verdict = OutOfDate missingSpec missingStatus)) \/
     (ending = Return /\
      (verdict = VersionNotFound \/
       verdict = SectionMissing "spec" \/
       verdict = SectionMissing "status"))).
Proof.
  unfold evaluate, trace.
  destruct (openAPIV3SchemaOf (rangeVersions (Versions (Spec crd)) None))
    as [schema|] eqn:Hschema.
  - destruct (Properties schema !! "spec") as [specSchema|] eqn:Hspec.
    + destruct (Properties schema !! "status") as [statusSchema|] eqn:Hstatus.
      * rewrite !(run_checkCRD_complete rgSpec rgStatus crdName crd
                    schema specSchema statusSchema _ Hschema Hspec Hstatus).
        cbn [snd]. rewrite app_nil_l, verdictOf_complete, conclusions_complete.
        eexists _, _. repeat split. left. split; [reflexivity|].
        destruct (_ && _); [now left|right; eauto].
      * rewrite !(run_checkCRD_noStatus rgSpec rgStatus crdName crd
                    schema specSchema _ Hschema Hspec Hstatus).
        cbn [snd]. rewrite app_nil_l, verdictOf_noStatus.
        eexists _, _. repeat split.
        -- cbn [app omap list_omap conclusion]. now rewrite conclusion_report.
        -- right. auto.
    + rewrite !(run_checkCRD_noSpec rgSpec rgStatus crdName crd
                  schema _ Hschema Hspec).
      eexists _, _. repeat split. right. auto.
  - rewrite !(run_checkCRD_noSchema rgSpec rgStatus crdName crd _ Hschema).
    eexists _, _. repeat split. right. auto.
Qed.

(** X7. The check concludes up-to-date exactly when the first version
    named [v1] has a schema with a [spec] section that declares [foo]
    and [bar] and a [status] section that declares [message] and
    [ready]. *)
Theorem checkCRD_up_to_date_iff rgSpec rgStatus crdName crd :
  valid_range rgSpec ->
  valid_range rgStatus ->
  evaluate rgSpec rgStatus crdName crd = Some UpToDate
  <-> exists version schema specSchema statusSchema,
        firstNamedV1 (Versions (Spec crd)) version /\
        Schema version = Some (MkCustomResourceValidation (Some schema)) /\
        Properties schema !! "spec" = Some specSchema /\
        Properties schema !! "status" = Some statusSchema /\
        (is_Some (Properties specSchema !! "foo") /\
         is_Some (Properties specSchema !! "bar")) /\
        (is_Some (Properties statusSchema !! "message") /\
         is_Some (Properties statusSchema !! "ready")).
Proof.
  intros HrgSpec HrgStatus. split.
  - unfold evaluate, trace.
    destruct (openAPIV3SchemaOf (rangeVersions (Versions (Spec crd)) None))
      as [schema|] eqn:Hschema.
    + destruct (Properties schema !! "spec") as [specSchema|] eqn:Hspec.
      * destruct (Properties schema !! "status") as [statusSchema|] eqn:Hstatus.
        -- rewrite (run_checkCRD_complete rgSpec rgStatus crdName crd
                      schema specSchema statusSchema _ Hschema Hspec Hstatus).
           cbn [snd]. rewrite app_nil_l, verdictOf_complete.
           destruct (forallb _ (rgSpec _)) eqn:HspecOk;
             destruct (forallb _ (rgStatus _)) eqn:HstatusOk; try discriminate.
           intros _.
           destruct (located_first crd schema Hschema) as (version & Hfirst & Hv).
           exists version, schema, specSchema, statusSchema.
           repeat split; try assumption.
           ++ now apply expectedSpec_declared, (forallb_present_subseteq rgSpec).
           ++ now apply expectedSpec_declared, (forallb_present_subseteq rgSpec).
           ++ now apply expectedStatus_declared, (forallb_present_subseteq rgStatus).
           ++ now apply expectedStatus_declared, (forallb_present_subseteq rgStatus).
        -- rewrite (run_checkCRD_noStatus rgSpec rgStatus crdName crd
                      schema specSchema _ Hschema Hspec Hstatus).
           cbn [snd]. rewrite app_nil_l, verdictOf_noStatus. discriminate.
      * rewrite (run_checkCRD_noSpec rgSpec rgStatus crdName crd
                   schema _ Hschema Hspec).
        discriminate.
    + rewrite (run_checkCRD_noSchema rgSpec rgStatus crdName crd _ Hschema).
      discriminate.
  - intros (version & schema & specSchema & statusSchema
            & Hfirst & Hv & Hspec & Hstatus & HspecKeys & HstatusKeys).
    pose proof (located_schema crd version schema Hfirst Hv) as Hschema.
    unfold evaluate, trace.
    rewrite (run_checkCRD_complete rgSpec rgStatus crdName crd
               schema specSchema statusSchema _ Hschema Hspec Hstatus).
    cbn [snd]. rewrite app_nil_l, verdictOf_complete.
    apply expectedSpec_declared, (forallb_present_subseteq rgSpec) in HspecKeys;
      [|assumption].
    apply expectedStatus_declared, (forallb_present_subseteq rgStatus) in HstatusKeys;
      [|assumption].
    now rewrite HspecKeys, HstatusKeys.
Qed.

Lemma checkCRD_up_to_date_iff_witness :
  valid_range stored_range /\
  valid_range reversed_range /\
  evaluate stored_range reversed_range "Up-to-Date CRD" mockUpToDateCRD
  = Some UpToDate.
Proof.
  split; [exact stored_valid|]. split; [exact reversed_valid|].
  apply (checkCRD_up_to_date_iff stored_range reversed_range "Up-to-Date CRD"
           mockUpToDateCRD stored_valid reversed_valid).
  exists (v1Version upToDateProperties), (object upToDateProperties),
         (object (<["foo" := scalar "string" ""]>
                  (<["bar" := scalar "integer" "int64"]> ∅))),
         (object (<["message" := scalar "string" ""]>
                  (<["ready" := scalar "boolean" ""]> ∅))).
  split; [apply singleVersion_first|].
  repeat split; try (vm_compute; reflexivity); vm_compute; eauto.
Defined.

(** X8. Only the key sets of the two sections matter.  Two documents
    whose located schemas have [spec] sections with the same keys, or
    both none, and [status] sections with the same keys, or both none,
    make the check print the same lines and end the same way: types,
    formats, nested properties and the other top-level properties are
    never read. *)
Theorem checkCRD_typed_keys_only rgSpec rgStatus crdName crd crd'
    schema schema' out :
  openAPIV3SchemaOf (rangeVersions (Versions (Spec crd)) None) = Some schema ->
  openAPIV3SchemaOf (rangeVersions (Versions (Spec crd')) None) = Some schema' ->
  sectionKeys schema "spec" = sectionKeys schema' "spec" ->
  sectionKeys schema "status" = sectionKeys schema' "status" ->
  checkCRD_typed rgSpec rgStatus crdName crd out
  = checkCRD_typed rgSpec rgStatus crdName crd' out.
Proof.
  intros Hschema Hschema' Hspec Hstatus. unfold sectionKeys in Hspec, Hstatus.
  destruct (Properties schema !! "spec") as [specSchema|] eqn:Hs;
    destruct (Properties schema' !! "spec") as [specSchema'|] eqn:Hs';
    try discriminate.
  - injection Hspec as Hspec.
    destruct (report_dom _ _ (rgSpec expectedSpecProperties) Hspec)
      as [HspecLines HspecAll].
    destruct (Properties schema !! "status") as [statusSchema|] eqn:Ht;
      destruct (Properties schema' !! "status") as [statusSchema'|] eqn:Ht';
      try discriminate.
    + injection Hstatus as Hstatus.
      destruct (report_dom _ _ (rgStatus expectedStatusProperties) Hstatus)
        as [HstatusLines HstatusAll].
      rewrite (run_checkCRD_complete rgSpec rgStatus crdName crd
                 schema specSchema statusSchema _ Hschema Hs Ht).
      rewrite (run_checkCRD_complete rgSpec rgStatus crdName crd'
                 schema' specSchema' statusSchema' _ Hschema' Hs' Ht').
      now rewrite HspecLines, HspecAll, HstatusLines, HstatusAll.
    + rewrite (run_checkCRD_noStatus rgSpec rgStatus crdName crd
                 schema specSchema _ Hschema Hs Ht).
      rewrite (run_checkCRD_noStatus rgSpec rgStatus crdName crd'
                 schema' specSchema' _ Hschema' Hs' Ht').
      now rewrite HspecLines.
  - rewrite (run_checkCRD_noSpec rgSpec rgStatus crdName crd schema _ Hschema Hs).
    now rewrite (run_checkCRD_noSpec rgSpec rgStatus crdName crd' schema' _
                   Hschema' Hs').
Qed.

Lemma checkCRD_typed_keys_only_witness :
  let retypedProperties :=
    <["spec" := MkJSONSchemaProps "array" "" retyped]>
    (<["status" := object (<["message" := scalar "integer" "int32"]>
                           (<["ready" := scalar "string" ""]> ∅))]>
    (<["metadata" := object ∅]> ∅)) in
  sectionKeys (object retypedProperties) "spec"
  = sectionKeys (object upToDateProperties) "spec" /\
  sectionKeys (object retypedProperties) "status"
  = sectionKeys (object upToDateProperties) "status" /\
  checkCRD_typed stored_range stored_range "retyped"
    (singleVersionCRD retypedProperties) []
  = checkCRD_typed stored_range stored_range "retyped" mockUpToDateCRD [].
Proof.
  intros retypedProperties.
  assert (Hspec : sectionKeys (object retypedProperties) "spec"
                  = sectionKeys (object upToDateProperties) "spec").
  { vm_compute. reflexivity. }
  assert (Hstatus : sectionKeys (object retypedProperties) "status"
                    = sectionKeys (object upToDateProperties) "status").
  { vm_compute. reflexivity. }
  split; [exact Hspec|]. split; [exact Hstatus|].
  exact (checkCRD_typed_keys_only stored_range stored_range "retyped"
           (singleVersionCRD retypedProperties) mockUpToDateCRD
           (object retypedProperties) (object upToDateProperties) []
           eq_refl eq_refl Hspec Hstatus).
Defined.

(** *** Documents that cannot be decoded, and main *)

Section Programs.

Variable Unstructured : Type.
Variable yaml_Unmarshal : string -> string + Unstructured.
Variable FromUnstructured : Unstructured -> string + CustomResourceDefinition.

Abbreviation checkCRD' := (checkCRD Unstructured yaml_Unmarshal FromUnstructured).
Abbreviation main' := (main Unstructured yaml_Unmarshal FromUnstructured).

Lemma run_call_exit {W} (body : Proc W unit) w code w' :
  body w = (Exit code, w') -> call body w = (Exit code, w').
Proof. intros Hbody. unfold call. now rewrite Hbody. Qed.

(** A call of [checkCRD] on a text that decodes goes on with the caller,
    whether the check ran to its end or returned early. *)
Lemma run_call_checkCRD rgSpec rgStatus crdName crdYaml obj crd out :
  yaml_Unmarshal crdYaml = inr obj ->
  FromUnstructured obj = inr crd ->
  call (checkCRD' rgSpec rgStatus crdName crdYaml) out
  = (Next tt,
     out ++ [LogRunningCheck crdName; LogConverted]
         ++ trace (checkCRD_typed rgSpec rgStatus crdName crd)).
Proof.
  intros Hyaml Hconvert. unfold call.
  rewrite (run_checkCRD_decoded Unstructured yaml_Unmarshal FromUnstructured
             rgSpec rgStatus crdName crdYaml obj crd out Hyaml Hconvert).
  destruct (checkCRD_typed_runs rgSpec rgStatus crdName crd)
    as (ending & [-> | ->] & Hrun);
    rewrite Hrun, <- app_assoc; reflexivity.
Qed.

Lemma run_checkCRD_undecoded rgSpec rgStatus crdName crdYaml err :
  yaml_Unmarshal crdYaml = inl err \/
  (exists obj, yaml_Unmarshal crdYaml = inr obj /\ FromUnstructured obj = inl err) ->
  exists fatal,
    (fatal = LogFatalUnmarshal crdName err \/ fatal = LogFatalConvert crdName err) /\
    forall out,
      checkCRD' rgSpec rgStatus crdName crdYaml out
      = (Exit 1, out ++ [LogRunningCheck crdName; fatal]).
Proof.
  intros [Hyaml | (obj & Hyaml & Hconvert)].
  - exists (LogFatalUnmarshal crdName err). split; [now left|].
    intros out. now apply run_checkCRD_unmarshal_error.
  - exists (LogFatalConvert crdName err). split; [now right|].
    intros out. now apply run_checkCRD_convert_error with obj.
Qed.

(** X9. A text that cannot be unmarshalled, or whose object cannot be
    converted to a typed document, ends the process with code 1: after
    the line that announces the check, one line with the error is logged,
    and no schema is looked at.  Read as a verdict, the lines say
    unparseable. *)
Theorem checkCRD_undecoded rgSpec rgStatus crdName crdYaml err out :
  yaml_Unmarshal crdYaml = inl err \/
  (exists obj, yaml_Unmarshal crdYaml = inr obj /\ FromUnstructured obj = inl err) ->
  exists fatal,
    (fatal = LogFatalUnmarshal crdName err \/ fatal = LogFatalConvert crdName err) /\
    checkCRD' rgSpec rgStatus crdName crdYaml out
    = (Exit 1, out ++ [LogRunningCheck crdName; fatal]) /\
    verdictOf (trace (checkCRD' rgSpec rgStatus crdName crdYaml))
    = Some Unparseable.
Proof.
  intros Hundecoded.
  destruct (run_checkCRD_undecoded rgSpec rgStatus crdName crdYaml err
              Hundecoded) as (fatal & Hfatal & Hrun).
  exists fatal. split; [exact Hfatal|]. split; [apply Hrun|].
  unfold trace. rewrite Hrun.
  now destruct Hfatal as [-> | ->].
Qed.

(** X10. When both documents of the program decode, [main] runs both
    checks and ends normally, whatever the first check found: an early
    return of [checkCRD] only ends that check.  The lines are the
    starting line, then for each document in turn the two lines that
    announce it and the lines of its check. *)
Theorem main_runs_both_checks rg1 rg2 rg3 rg4 obj1 crd1 obj2 crd2 :
  yaml_Unmarshal mockOutOfDateCRDFromCluster = inr obj1 ->
  FromUnstructured obj1 = inr crd1 ->
  yaml_Unmarshal mockUpToDateCRDFromCluster = inr obj2 ->
  FromUnstructured obj2 = inr crd2 ->
  main' rg1 rg2 rg3 rg4 []
  = (Next tt,
     [LogStarting; LogRunningCheck "Out-of-Date CRD"; LogConverted]
     ++ trace (checkCRD_typed rg1 rg2 "Out-of-Date CRD" crd1)
     ++ [LogRunningCheck "Up-to-Date CRD"; LogConverted]
     ++ trace (checkCRD_typed rg3 rg4 "Up-to-Date CRD" crd2)).
Proof.
  intros Hyaml1 Hconvert1 Hyaml2 Hconvert2. unfold main.
  run_step.
  erewrite run_bind_next
    by (eapply run_call_checkCRD; [exact Hyaml1|exact Hconvert1]).
  rewrite (run_call_checkCRD rg3 rg4 "Up-to-Date CRD" _ obj2 crd2 _
             Hyaml2 Hconvert2).
  now rewrite <- !app_assoc.
Qed.

(** X11. When the first document cannot be decoded, [main] ends the
    process with code 1 after three lines, and the second document is
    never checked. *)
Theorem main_first_undecoded rg1 rg2 rg3 rg4 err :
  yaml_Unmarshal mockOutOfDateCRDFromCluster = inl err \/
  (exists obj, yaml_Unmarshal mockOutOfDateCRDFromCluster = inr obj /\
               FromUnstructured obj = inl err) ->
  exists fatal,
    (fatal = LogFatalUnmarshal "Out-of-Date CRD" err \/
     fatal = LogFatalConvert "Out-of-Date CRD" err) /\
    main' rg1 rg2 rg3 rg4 []
    = (Exit 1, [LogStarting; LogRunningCheck "Out-of-Date CRD"; fatal]).
Proof.
  intros Hundecoded.
  destruct (run_checkCRD_undecoded rg1 rg2 "Out-of-Date CRD" _ err
              Hundecoded) as (fatal & Hfatal & Hrun).
  exists fatal. split; [exact Hfatal|].
  unfold main. run_step.
  erewrite run_bind_exit by (apply run_call_exit, Hrun).
  reflexivity.
Qed.

(** X12. When the first document decodes and the second cannot be
    decoded, [main] prints the whole first check and then ends the
    process with code 1 on the error of the second. *)
Theorem main_second_undecoded rg1 rg2 rg3 rg4 obj1 crd1 err :
  yaml_Unmarshal mockOutOfDateCRDFromCluster = inr obj1 ->
  FromUnstructured obj1 = inr crd1 ->
  yaml_Unmarshal mockUpToDateCRDFromCluster = inl err \/
  (exists obj, yaml_Unmarshal mockUpToDateCRDFromCluster = inr obj /\
               FromUnstructured obj = inl err) ->
  exists fatal,
    (fatal = LogFatalUnmarshal "Up-to-Date CRD" err \/
     fatal = LogFatalConvert "Up-to-Date CRD" err) /\
    main' rg1 rg2 rg3 rg4 []
    = (Exit 1,
       [LogStarting; LogRunningCheck "Out-of-Date CRD"; LogConverted]
       ++ trace (checkCRD_typed rg1 rg2 "Out-of-Date CRD" crd1)
       ++ [LogRunningCheck "Up-to-Date CRD"; fatal]).
Proof.
  intros Hyaml1 Hconvert1 Hundecoded.
  destruct (run_checkCRD_undecoded rg3 rg4 "Up-to-Date CRD" _ err
              Hundecoded) as (fatal & Hfatal & Hrun).
  exists fatal. split; [exact Hfatal|].
  unfold main. run_step.
  erewrite run_bind_next
    by (eapply run_call_checkCRD; [exact Hyaml1|exact Hconvert1]).
  erewrite run_call_exit by apply Hrun.
  now rewrite <- !app_assoc.
Qed.

End Programs.

Lemma knownDocuments_outOfDate :
  knownDocuments mockOutOfDateCRDFromCluster = inr mockOutOfDateCRD.
Proof. vm_compute. reflexivity. Qed.

Lemma knownDocuments_upToDate :
  knownDocuments mockUpToDateCRDFromCluster = inr mockUpToDateCRD.
Proof. vm_compute. reflexivity. Qed.

Lemma checkCRD_undecoded_witness :
  (malformed "spec: [" = inl "yaml: mapping values are not allowed in this context" \/
   (exists obj, malformed "spec: [" = inr obj /\
                accept obj = inl "yaml: mapping values are not allowed in this context")) /\
  exists fatal,
    (fatal = LogFatalUnmarshal "broken"
               "yaml: mapping values are not allowed in this context" \/
     fatal = LogFatalConvert "broken"
               "yaml: mapping values are not allowed in this context") /\
    checkCRD CustomResourceDefinition malformed accept
      stored_range stored_range "broken" "spec: [" [LogStarting]
    = (Exit 1, [LogStarting] ++ [LogRunningCheck "broken"; fatal]) /\
    verdictOf (trace (checkCRD CustomResourceDefinition malformed accept
                        stored_range stored_range "broken" "spec: ["))
    = Some Unparseable.
Proof.
  assert (Hundecoded :
    malformed "spec: [" = inl "yaml: mapping values are not allowed in this context" \/
    (exists obj, malformed "spec: [" = inr obj /\
                 accept obj = inl "yaml: mapping values are not allowed in this context"))
    by (left; reflexivity).
  split; [exact Hundecoded|].
  exact (checkCRD_undecoded CustomResourceDefinition malformed accept
           stored_range stored_range "broken" "spec: ["
           "yaml: mapping values are not allowed in this context" [LogStarting]
           Hundecoded).
Defined.

Lemma main_runs_both_checks_witness :
  knownDocuments mockOutOfDateCRDFromCluster = inr mockOutOfDateCRD /\
  accept mockOutOfDateCRD = inr mockOutOfDateCRD /\
  knownDocuments mockUpToDateCRDFromCluster = inr mockUpToDateCRD /\
  accept mockUpToDateCRD = inr mockUpToDateCRD /\
  main CustomResourceDefinition knownDocuments accept
    stored_range stored_range stored_range stored_range []
  = (Next tt,
     [LogStarting; LogRunningCheck "Out-of-Date CRD"; LogConverted]
     ++ trace (checkCRD_typed stored_range stored_range "Out-of-Date CRD"
                 mockOutOfDateCRD)
     ++ [LogRunningCheck "Up-to-Date CRD"; LogConverted]
     ++ trace (checkCRD_typed stored_range stored_range "Up-to-Date CRD"
                 mockUpToDateCRD)).
Proof.
  split; [exact knownDocuments_outOfDate|]. split; [reflexivity|].
  split; [exact knownDocuments_upToDate|]. split; [reflexivity|].
  exact (main_runs_both_checks CustomResourceDefinition knownDocuments accept
           stored_range stored_range stored_range stored_range
           mockOutOfDateCRD mockOutOfDateCRD mockUpToDateCRD mockUpToDateCRD
           knownDocuments_outOfDate eq_refl knownDocuments_upToDate eq_refl).
Defined.

Lemma main_first_undecoded_witness :
  (knownDocuments mockOutOfDateCRDFromCluster = inl "unrecognized type" \/
   (exists obj, knownDocuments mockOutOfDateCRDFromCluster = inr obj /\
                reject obj = inl "unrecognized type")) /\
  exists fatal,
    (fatal = LogFatalUnmarshal "Out-of-Date CRD" "unrecognized type" \/
     fatal = LogFatalConvert "Out-of-Date CRD" "unrecognized type") /\
    main CustomResourceDefinition knownDocuments reject
      stored_range stored_range stored_range stored_range []
    = (Exit 1, [LogStarting; LogRunningCheck "Out-of-Date CRD"; fatal]).
Proof.
  assert (Hundecoded :
    knownDocuments mockOutOfDateCRDFromCluster = inl "unrecognized type" \/
    (exists obj, knownDocuments mockOutOfDateCRDFromCluster = inr obj /\
                 reject obj = inl "unrecognized type")).
  { right. exists mockOutOfDateCRD. split; [exact knownDocuments_outOfDate|reflexivity]. }
  split; [exact Hundecoded|].
  exact (main_first_undecoded CustomResourceDefinition knownDocuments reject
           stored_range stored_range stored_range stored_range
           "unrecognized type" Hundecoded).
Defined.

Lemma main_second_undecoded_witness :
  secondMalformed mockOutOfDateCRDFromCluster = inr mockOutOfDateCRD /\
  accept mockOutOfDateCRD = inr mockOutOfDateCRD /\
  (secondMalformed mockUpToDateCRDFromCluster = inl "yaml: did not find expected key" \/
   (exists obj, secondMalformed mockUpToDateCRDFromCluster = inr obj /\
                accept obj = inl "yaml: did not find expected key")) /\
  exists fatal,
    (fatal = LogFatalUnmarshal "Up-to-Date CRD" "yaml: did not find expected key" \/
     fatal = LogFatalConvert "Up-to-Date CRD" "yaml: did not find expected key") /\
    main CustomResourceDefinition secondMalformed accept
      stored_range stored_range stored_range stored_range []
    = (Exit 1,
       [LogStarting; LogRunningCheck "Out-of-Date CRD"; LogConverted]
       ++ trace (checkCRD_typed stored_range stored_range "Out-of-Date CRD"
                   mockOutOfDateCRD)
       ++ [LogRunningCheck "Up-to-Date CRD"; fatal]).
Proof.
  assert (Hfirst : secondMalformed mockOutOfDateCRDFromCluster = inr mockOutOfDateCRD)
    by (vm_compute; reflexivity).
  assert (Hundecoded :
    secondMalformed mockUpToDateCRDFromCluster = inl "yaml: did not find expected key" \/
    (exists obj, secondMalformed mockUpToDateCRDFromCluster = inr obj /\
                 accept obj = inl "yaml: did not find expected key"))
    by (left; vm_compute; reflexivity).
  split; [exact Hfirst|]. split; [reflexivity|]. split; [exact Hundecoded|].
  exact (main_second_undecoded CustomResourceDefinition secondMalformed accept
           stored_range stored_range stored_range stored_range
           mockOutOfDateCRD mockOutOfDateCRD "yaml: did not find expected key"
           Hfirst eq_refl Hundecoded).
Defined.

End CheckFacts.

(** ** Further properties of the file-writing program *)

Module FileWriterMore.

Import FileWriter FileWriterFacts.

(** *** Strings and paths *)

Lemma append_empty_r (s : string) : s +:+ "" = s.
Proof.
  induction s as [|c s IH]; [reflexivity|].
  change (String c (s +:+ "") = String c s). now rewrite IH.
Qed.

Lemma length_append (s t : string) :
  String.length (s +:+ t) = (String.length s + String.length t)%nat.
Proof.
  induction s as [|c s IH]; [reflexivity|].
  change (S (String.length (s +:+ t)) = S (String.length s + String.length t)).
  now rewrite IH.
Qed.

Lemma append_cancel_r (t : string) : forall s1 s2,
  s1 +:+ t = s2 +:+ t -> s1 = s2.
Proof.
  induction s1 as [|c s1 IH]; intros [|c' s2] Heq.
  - reflexivity.
  - apply (f_equal String.length) in Heq.
    rewrite !length_append in Heq. cbn [String.length] in Heq. lia.
  - apply (f_equal String.length) in Heq.
    rewrite !length_append in Heq. cbn [String.length] in Heq. lia.
  - change (String c (s1 +:+ t) = String c' (s2 +:+ t)) in Heq.
    injection Heq as -> Heq. f_equal. now apply IH.
Qed.

Lemma outputName_inj timestamp timestamp' :
  filepath_Join "results" (outputName timestamp)
  = filepath_Join "results" (outputName timestamp') ->
  timestamp = timestamp'.
Proof.
  cbv [filepath_Join outputName]. intros Heq.
  apply (append_cancel_r ".txt").
  cbv [String.append] in Heq. injection Heq as Heq. exact Heq.
Qed.

Lemma errorName_inj timestamp timestamp' :
  filepath_Join "results" (errorName timestamp)
  = filepath_Join "results" (errorName timestamp') ->
  timestamp = timestamp'.
Proof.
  cbv [filepath_Join errorName]. intros Heq.
  apply (append_cancel_r ".txt").
  cbv [String.append] in Heq. injection Heq as Heq. exact Heq.
Qed.

Lemma output_error_apart timestamp timestamp' :
  filepath_Join "results" (outputName timestamp)
  <> filepath_Join "results" (errorName timestamp').
Proof. cbv [filepath_Join outputName errorName String.append]. discriminate. Qed.

(** *** The four runs of main *)

Section Runs.

Variable sys : system.
Variable w : world.

Abbreviation outputFile := (filepath_Join "results" (outputName (clock sys))).
Abbreviation errorFile := (filepath_Join "results" (errorName (clock sys))).
Abbreviation line1 := ("Hello from Go Playground!" +:+ nl).
Abbreviation line2 :=
  ("This is a simple Go program that runs to completion." +:+ nl).

Lemma run_main_no_directory err :
  mkdirError sys "results" = Some err ->
  main sys w
  = (Exit 1,
     MkWorld (stdout w)
       (stderr w +:+ "Error creating results directory: " +:+ err +:+ nl)
       (dirs w) (files w)).
Proof. intros Hdir. run_main. now rewrite Hdir. Qed.

Lemma run_main_no_output err :
  mkdirError sys "results" = None ->
  createError sys outputFile = Some err ->
  main sys w
  = (Exit 1,
     MkWorld (stdout w)
       (stderr w +:+ "Error creating output file: " +:+ err +:+ nl)
       ({["results"]} ∪ dirs w) (files w)).
Proof. intros Hdir Hout. run_main. rewrite Hdir. now rewrite Hout. Qed.

Lemma run_main_no_error_file err :
  mkdirError sys "results" = None ->
  createError sys outputFile = None ->
  createError sys errorFile = Some err ->
  main sys w
  = (Exit 1,
     MkWorld (stdout w)
       (stderr w +:+ "Error creating error file: " +:+ err +:+ nl)
       ({["results"]} ∪ dirs w) (<[outputFile := ""]> (files w))).
Proof.
  intros Hdir Hout Herr. run_main. rewrite Hdir. rewrite Hout.
  cbn [stdout stderr dirs files]. now rewrite Herr.
Qed.

Lemma run_main_success :
  mkdirError sys "results" = None ->
  createError sys outputFile = None ->
  createError sys errorFile = None ->
  main sys w
  = (Exit 0,
     MkWorld ((stdout w +:+ line1) +:+ line2) (stderr w)
       ({["results"]} ∪ dirs w)
       (alter (fun content => content +:+ line2) outputFile
          (alter (fun content => content +:+ line1) outputFile
             (<[errorFile := ""]> (<[outputFile := ""]> (files w)))))).
Proof.
  intros Hdir Hout Herr. run_main. rewrite Hdir. rewrite Hout.
  cbn [stdout stderr dirs files]. now rewrite Herr.
Qed.

Lemma main_exit_0_inv w1 :
  main sys w = (Exit 0, w1) ->
  mkdirError sys "results" = None /\
  createError sys outputFile = None /\
  createError sys errorFile = None.
Proof.
  destruct (mkdirError sys "results") as [err|] eqn:Hdir.
  { rewrite (run_main_no_directory err Hdir). discriminate. }
  destruct (createError sys outputFile) as [err|] eqn:Hout.
  { rewrite (run_main_no_output err Hdir Hout). discriminate. }
  destruct (createError sys errorFile) as [err|] eqn:Herr.
  { rewrite (run_main_no_error_file err Hdir Hout Herr). discriminate. }
  auto.
Qed.

(** X13. The program always ends through [os.Exit], with code 0 or 1,
    and the code is 0 exactly when the directory and both files could be
    created. *)
Theorem main_exit_code :
  exists code w',
    main sys w = (Exit code, w') /\
    (code = 0 \/ code = 1) /\
    (code = 0 <->
     mkdirError sys "results" = None /\
     createError sys outputFile = None /\
     createError sys errorFile = None).
Proof.
  destruct (mkdirError sys "results") as [err|] eqn:Hdir.
  { eexists _, _. split; [exact (run_main_no_directory err Hdir)|].
    split; [now right|]. split; [discriminate|]. now intros [? _]. }
  destruct (createError sys outputFile) as [err|] eqn:Hout.
  { eexists _, _. split; [exact (run_main_no_output err Hdir Hout)|].
    split; [now right|]. split; [discriminate|]. now intros (_ & ? & _). }
  destruct (createError sys errorFile) as [err|] eqn:Herr.
  { eexists _, _. split; [exact (run_main_no_error_file err Hdir Hout Herr)|].
    split; [now right|]. split; [discriminate|]. now intros (_ & _ & ?). }
  eexists _, _. split; [exact (run_main_success Hdir Hout Herr)|].
  split; [now left|]. now split.
Qed.

Lemma files_frame path :
  path <> outputFile ->
  path <> errorFile ->
  files (main sys w).2 !! path = files w !! path.
Proof.
  intros Hout Herr.
  destruct (mkdirError sys "results") as [err|] eqn:Hdir.
  { now rewrite (run_main_no_directory err Hdir). }
  destruct (createError sys outputFile) as [err|] eqn:Hcreate.
  { now rewrite (run_main_no_output err Hdir Hcreate). }
  destruct (createError sys errorFile) as [err|] eqn:Hcreate'.
  { rewrite (run_main_no_error_file err Hdir Hcreate Hcreate').
    cbn [snd files]. now rewrite lookup_insert_ne by congruence. }
  rewrite (run_main_success Hdir Hcreate Hcreate'). cbn [snd files].
  rewrite !lookup_alter_ne by congruence.
  now rewrite !lookup_insert_ne by congruence.
Qed.

(** X14. The program touches nothing but its own two files, the
    [results] directory and the ends of the two streams: every other
    file keeps its content (or stays absent), no directory is removed
    and none but [results] is made, and what was on standard output and
    standard error before is still there, with text added after it at
    most. *)
Theorem main_frame :
  (forall path,
     path <> outputFile -> path <> errorFile ->
     files (main sys w).2 !! path = files w !! path) /\
  dirs w ⊆ dirs (main sys w).2 /\
  dirs (main sys w).2 ⊆ {["results"]} ∪ dirs w /\
  (exists printed, stdout (main sys w).2 = stdout w +:+ printed) /\
  (exists logged, stderr (main sys w).2 = stderr w +:+ logged).
Proof.
  split; [exact files_frame|].
  destruct (mkdirError sys "results") as [err|] eqn:Hdir.
  { rewrite (run_main_no_directory err Hdir). cbn [snd stdout stderr dirs].
    split; [reflexivity|]. split; [apply union_subseteq_r|].
    split; [exists ""; now rewrite append_empty_r|eauto]. }
  destruct (createError sys outputFile) as [err|] eqn:Hcreate.
  { rewrite (run_main_no_output err Hdir Hcreate). cbn [snd stdout stderr dirs].
    split; [apply union_subseteq_r|]. split; [reflexivity|].
    split; [exists ""; now rewrite append_empty_r|eauto]. }
  destruct (createError sys errorFile) as [err|] eqn:Hcreate'.
  { rewrite (run_main_no_error_file err Hdir Hcreate Hcreate').
    cbn [snd stdout stderr dirs].
    split; [apply union_subseteq_r|]. split; [reflexivity|].
    split; [exists ""; now rewrite append_empty_r|eauto]. }
  rewrite (run_main_success Hdir Hcreate Hcreate'). cbn [snd stdout stderr dirs].
  split; [apply union_subseteq_r|]. split; [reflexivity|]. split.
  - exists (line1 +:+ line2). apply append_assoc.
  - exists "". now rewrite append_empty_r.
Qed.

End Runs.

(** *** One run after another *)

Lemma success_files sys w w1 :
  main sys w = (Exit 0, w1) ->
  files w1 !! filepath_Join "results" (outputName (clock sys))
  = Some (("Hello from Go Playground!" +:+ nl)
          +:+ "This is a simple Go program that runs to completion." +:+ nl) /\
  files w1 !! filepath_Join "results" (errorName (clock sys)) = Some "".
Proof.
  intros Hrun.
  destruct (main_exit_0_inv sys w w1 Hrun) as (Hdir & Hout & Herr).
  rewrite (run_main_success sys w Hdir Hout Herr) in Hrun.
  injection Hrun as <-. cbn [files].
  pose proof (output_error_distinct (clock sys)) as Hdistinct.
  split.
  - rewrite !lookup_alter_eq, lookup_insert_ne, lookup_insert_eq by congruence.
    reflexivity.
  - rewrite !lookup_alter_ne, lookup_insert_eq by assumption. reflexivity.
Qed.



(** X16. A later run under another timestamp leaves the files of an
    earlier successful run as they were, whether the later run succeeds
    or not: the earlier output file still holds the two lines and the
    earlier error file is still empty. *)
Theorem main_keeps_earlier_files sys sys' w w1 :
  main sys w = (Exit 0, w1) ->
  clock sys <> clock sys' ->
  files (main sys' w1).2 !! filepath_Join "results" (outputName (clock sys))
  = Some (("Hello from Go Playground!" +:+ nl)
          +:+ "This is a simple Go program that runs to completion." +:+ nl) /\
  files (main sys' w1).2 !! filepath_Join "results" (errorName (clock sys))
  = Some "".
Proof.
  intros Hrun Hclock.
  destruct (success_files sys w w1 Hrun) as [HoutputFile HerrorFile].
  split.
  - rewrite files_frame; [exact HoutputFile| |].
    + intros Heq. now apply outputName_inj in Heq.
    + apply output_error_apart.
  - rewrite files_frame; [exact HerrorFile| |].
    + intros Heq. symmetry in Heq. now apply output_error_apart in Heq.
    + intros Heq. now apply errorName_inj in Heq.
Qed.

Lemma main_keeps_earlier_files_witness :
  let sys := obliging "20261031-055500" in
  let sys' := refusing "20261031-055501" "results/error-" in
  let w1 := (main sys pristine).2 in
  main sys pristine = (Exit 0, w1) /\
  clock sys <> clock sys' /\
  files (main sys' w1).2 !! "results/output-20261031-055500.txt"
  = Some (("Hello from Go Playground!" +:+ nl)
          +:+ "This is a simple Go program that runs to completion." +:+ nl) /\
  files (main sys' w1).2 !! "results/error-20261031-055500.txt" = Some "".
Proof.
  intros sys sys' w1.
  assert (Hrun : main sys pristine = (Exit 0, w1)) by (vm_compute; reflexivity).
  assert (Hclock : clock sys <> clock sys') by (vm_compute; discriminate).
  split; [exact Hrun|]. split; [exact Hclock|].
  exact (main_keeps_earlier_files sys sys' pristine w1 Hrun Hclock).
Defined.

End FileWriterMore.
